(** * PID step size controller (nodes/step_size_controllers/pid_controller.py)

    A shallow embedding of [PIDController]: the PID growth factor
    ([dt_factor]), the rolling error-ratio history ([update_state],
    [merge_states]), the accept/reject decision ([adapt_step_size]) and the
    initial-step heuristic ([_select_initial_step]), followed by the
    properties the specification states about them.

    Numbers are IEEE 754 binary64 values ([spec_float] of the Standard
    Library at precision 53, with its correctly rounded operations), the
    format of Python floats and of [torch.float64] tensors, so NaN, the
    infinities, signed zeros, overflow and underflow are those of the
    program.  A tensor with a batch dimension is a list with one entry per
    batch element, a data tensor a list of rows.  Element-wise operations pair
    entries position by position; the model supposes that the shapes of the
    operands agree (torch broadcasts or refuses the others), and the theorems
    state it where a result depends on it. *)

From Stdlib Require Import ZArith Bool Lia.
From Stdlib Require Import Floats.SpecFloat.
From stdpp Require Import base option list.

Local Open Scope Z_scope.

(** ** Python exceptions and fallible computations *)

Inductive exn : Type :=
| ZeroDivisionError
| OverflowError
| AssertionError.

Inductive result (A : Type) : Type :=
| Ok (a : A)
| Raise (e : exn).
Arguments Ok {A} a.
Arguments Raise {A} e.

Definition bind {A B : Type} (m : result A) (k : A -> result B) : result B :=
  match m with
  | Ok a => k a
  | Raise e => Raise e
  end.

Notation "'let*' x ':=' m 'in' k" := (bind m (fun x => k))
  (at level 10, x name, m at level 100, k at level 200).

(** ** Binary64 scalars *)

Module F64.

Definition prec : Z := 53.
Definition emax : Z := 1024.

Definition add : spec_float -> spec_float -> spec_float := SFadd prec emax.
Definition sub : spec_float -> spec_float -> spec_float := SFsub prec emax.
Definition mul : spec_float -> spec_float -> spec_float := SFmul prec emax.
Definition div : spec_float -> spec_float -> spec_float := SFdiv prec emax.
Definition sqrt : spec_float -> spec_float := SFsqrt prec emax.
Definition opp : spec_float -> spec_float := SFopp.
Definition abs : spec_float -> spec_float := SFabs.

Definition ltb : spec_float -> spec_float -> bool := SFltb.
Definition leb : spec_float -> spec_float -> bool := SFleb.
Definition eqb : spec_float -> spec_float -> bool := SFeqb.

Definition nan : spec_float := S754_nan.
Definition infinity : spec_float := S754_infinity false.
Definition zero : spec_float := S754_zero false.

Definition is_nan (x : spec_float) : bool :=
  match x with
  | S754_nan => true
  | _ => false
  end.

(** [math.isfinite] / [torch.isfinite]: neither NaN nor an infinity. *)
Definition is_finite (x : spec_float) : bool :=
  match x with
  | S754_zero _ | S754_finite _ _ _ => true
  | S754_infinity _ | S754_nan => false
  end.

(** Plus infinity or NaN: what a sum of squares with a non-finite term
    is. *)
Definition inf_or_nan (x : spec_float) : bool :=
  match x with
  | S754_infinity false | S754_nan => true
  | _ => false
  end.

(** The sign bit; NaN carries none in [spec_float]. *)
Definition signbit (x : spec_float) : option bool :=
  match x with
  | S754_zero s | S754_infinity s | S754_finite s _ _ => Some s
  | S754_nan => None
  end.

(** Not negative: NaN, or a number whose sign bit is clear. *)
Definition not_negative (x : spec_float) : bool :=
  match signbit x with
  | Some true => false
  | _ => true
  end.

(** The place of a number in the order of the comparisons: the infinities
    at the two ends, the finite numbers by sign, then exponent, then
    mantissa, as [SFcompare] reads them.  NaN has no place; it is given that
    of zero and told apart by [is_nan]. *)
Definition key (x : spec_float) : Z * Z * Z :=
  match x with
  | S754_nan => (0, 0, 0)
  | S754_infinity true => (-2, 0, 0)
  | S754_infinity false => (2, 0, 0)
  | S754_zero _ => (0, 0, 0)
  | S754_finite true m e => (-1, - e, - Zpos m)
  | S754_finite false m e => (1, e, Zpos m)
  end.

Definition lex_lt (a b : Z * Z * Z) : Prop :=
  a.1.1 < b.1.1 \/
  (a.1.1 = b.1.1 /\ (a.1.2 < b.1.2 \/ (a.1.2 = b.1.2 /\ a.2 < b.2))).

Definition lex_le (a b : Z * Z * Z) : Prop :=
  a.1.1 < b.1.1 \/
  (a.1.1 = b.1.1 /\ (a.1.2 < b.1.2 \/ (a.1.2 = b.1.2 /\ a.2 <= b.2))).

(** The fused multiply-add x * y + z: the exact product is added to [z]
    and the sum is rounded once.  With a zero, an infinity or NaN among [x]
    and [y] the product is exact as [mul] gives it. *)
Definition fma (x y z : spec_float) : spec_float :=
  match x, y with
  | S754_finite sx mx ex, S754_finite sy my ey =>
      match z with
      | S754_nan => S754_nan
      | S754_infinity _ => z
      | S754_zero _ => mul x y
      | S754_finite sz mz ez =>
          let ep := ex + ey in
          let e := Z.min ep ez in
          binary_normalize prec emax
            (cond_Zopp (xorb sx sy) (Zpos (fst (shl_align (mx * my) ep e)))
             + cond_Zopp sz (Zpos (fst (shl_align mz ez e))))
            e false
      end
  | _, _ => add (mul x y) z
  end.

(** The binary64 value nearest to an integer. *)
Definition of_Z (n : Z) : spec_float := binary_normalize prec emax n 0 false.

Definition one : spec_float := of_Z 1.

(** The decimal literal [m e-k] (1e-6 is [lit 1 6]): the binary64 value
    nearest to m / 10^k, for m and 10^k below 2^53. *)
Definition lit (m k : Z) : spec_float := div (of_Z m) (of_Z (10 ^ k)).

(** The power of two 2^e. *)
Definition pow2 (e : Z) : spec_float := SFldexp prec emax one e.

(** Python's [x / n] for a float [x] and an int [n]: the int is converted
    to a float first ([OverflowError] when it is too large for one), and a
    zero divisor raises [ZeroDivisionError]. *)
Definition py_truediv (x : spec_float) (n : Z) : result spec_float :=
  if negb (is_finite (of_Z n)) then Raise OverflowError
  else if n =? 0 then Raise ZeroDivisionError
  else Ok (div x (of_Z n)).

End F64.

Abbreviation float := spec_float.

(** ** The tensor operations the controller uses

    The element-wise operations are those of torch on operands of one
    shape, which the [torchode.typing] annotations of the controller's
    arguments give them: one entry per batch element.  On operands of
    different shapes torch broadcasts or raises RuntimeError; neither is
    modelled, and a theorem whose result depends on the shapes agreeing has
    them as hypotheses. *)

Module torch.

Import F64.

(** One value per batch element. *)
Abbreviation Tensor1 := (list float).
(** One row of components per batch element. *)
Abbreviation Tensor2 := (list (list float)).
Abbreviation BoolTensor := (list bool).

(** [std::max] and [std::min], which the clamp kernel applies to numbers. *)
Definition std_max (a b : float) : float := if ltb a b then b else a.
Definition std_min (a b : float) : float := if ltb b a then b else a.

(** [torch.maximum] and [torch.minimum] on one entry: a NaN operand gives
    NaN. *)
Definition maximum_s (a b : float) : float :=
  if is_nan a || is_nan b then nan else std_max a b.
Definition minimum_s (a b : float) : float :=
  if is_nan a || is_nan b then nan else std_min a b.

(** [torch.clamp(x, min=lo, max=hi)] with number bounds on one entry:
    a NaN bound fills the result with NaN; between numbers it is
    min(max(x, lo), hi), a NaN entry staying NaN. *)
Definition clamp_s (x lo hi : float) : float :=
  if is_nan lo || is_nan hi then nan
  else if is_nan x then x else std_min (std_max x lo) hi.

(** [torch.clamp(x, lo, hi)] with optional tensor bounds on one entry. *)
Definition clamp_opt_s (x : float) (lo hi : option float) : float :=
  let x1 := match lo with Some l => maximum_s x l | None => x end in
  match hi with Some h => minimum_s x1 h | None => x1 end.

Definition maximum (a b : Tensor1) : Tensor1 := zip_with maximum_s a b.
Definition minimum (a b : Tensor1) : Tensor1 := zip_with minimum_s a b.
Definition clamp (x : Tensor1) (lo hi : float) : Tensor1 :=
  (fun v => clamp_s v lo hi) <$> x.

(** [torch.where(cond, a, b)] on a mask and two tensors of one shape. *)
Definition where_ {A : Type} (cond : BoolTensor) (a b : list A) : list A :=
  zip_with (fun (c : bool) (xy : A * A) => if c then xy.1 else xy.2)
           cond (zip_with pair a b).

(** [torch.where(cond, a, b)] with both branches numbers. *)
Definition where_ss {A : Type} (cond : BoolTensor) (a b : A) : list A :=
  (fun c : bool => if c then a else b) <$> cond.

(** [torch.where(cond, a, b)] with a zero-dimensional [a]. *)
Definition where_st {A : Type} (cond : BoolTensor) (a : A) (b : list A) : list A :=
  zip_with (fun (c : bool) (y : A) => if c then a else y) cond b.

Definition ones (n : nat) : Tensor1 := replicate n one.

(** [o is not None]. *)
Definition is_Some_b {A : Type} (o : option A) : bool :=
  match o with
  | Some _ => true
  | None => false
  end.

(** Element-wise maps over data tensors. *)
Definition map2 (f : float -> float) (x : Tensor2) : Tensor2 :=
  (fun row : list float => f <$> row) <$> x.
Definition zip2 (f : float -> float -> float) (x y : Tensor2) : Tensor2 :=
  zip_with (zip_with f) x y.

(** [torch.add(a, x, alpha=r)] for zero-dimensional [a] and [r]:
    a + r * x, which the kernel computes with one fused multiply-add per
    entry, so that the sum is rounded once. *)
Definition add_alpha (a : float) (x : Tensor2) (r : float) : Tensor2 :=
  map2 (fun v => fma v r a) x.

(** [torch.addcmul(y, s[:, None], f)]: y + s * f, with one [s] per row. *)
Definition addcmul_rows (y : Tensor2) (s : Tensor1) (f : Tensor2) : Tensor2 :=
  zip_with (fun (ys : list float * float) (fr : list float) =>
              zip_with (fun yv fv => add yv (mul ys.2 fv)) ys.1 fr)
           (zip_with pair y s) f.

(** [torch.addcmul(t, a, b)] on batch vectors: t + a * b. *)
Definition addcmul (t a b : Tensor1) : Tensor1 :=
  zip_with (fun (tv : float) (ab : float * float) => add tv (mul ab.1 ab.2))
           t (zip_with pair a b).

End torch.

(** ** Collaborators of the controller *)

(** [torchode.status_codes], as far as the controller reports them. *)
Inductive Status : Type :=
| SUCCESS
| INFINITE_NORM.

(** [StepResult]: the stepper's proposed state and its optional error
    estimate. *)
Module StepResult.
Record t : Type := mk {
  y : list (list float);
  error_estimate : option (list (list float));
}.
End StepResult.

(** [ODETerm]: the vector field [vf(t, y, stats, args)].  The statistics
    dictionary and the user arguments are passed through untouched by the
    controller and left out. *)
Module ODETerm.
Record t : Type := mk {
  vf : list float -> list (list float) -> list (list float);
}.
End ODETerm.

(** [InitialValueProblem], as far as [init] reads it. *)
Module InitialValueProblem.
Record t : Type := mk {
  y0 : list (list float);
  t_start : list float;
  t_end : list float;
  time_direction : list float;
  batch_size : nat;
}.
End InitialValueProblem.

(** ** The controller state *)

Module PIDState.

Record t : Type := mk {
  method_order : Z;
  prev_error_ratio : list float;
  prev_prev_error_ratio : list float;
  almost_zero : float;
  dt_min : option float;
  dt_max : option float;
}.

(** Modelled from the spec: [PIDState.update_error_ratios] belongs to
    torchode's [PIDState] class, which is not among the sources.  It
    "returns a state with only the two history fields replaced; all other
    fields carried over unchanged". *)
Definition update_error_ratios (s : t) (prev_error_ratio prev_prev_error_ratio : list float) : t :=
  mk (method_order s) prev_error_ratio prev_prev_error_ratio
     (almost_zero s) (dt_min s) (dt_max s).

(** Modelled from the spec: [PIDState.default] (not among the sources)
    "builds a fresh state with both history slots set to the neutral ratio
    1.0".  The floor it stores in [almost_zero], "a small positive floor
    constant", is the argument [floor]. *)
Definition default (floor : float) (method_order : Z) (batch_size : nat)
    (dt_min dt_max : option float) : t :=
  let default_ratio := torch.ones batch_size in
  mk method_order default_ratio default_ratio floor dt_min dt_max.

End PIDState.

(** ** The controller *)

Module PIDController.

Import F64 torch.

(** The attributes [__init__] stores. *)
Record t : Type := mk {
  atol : float;
  rtol : float;
  pcoeff : float;
  icoeff : float;
  dcoeff : float;
  term : option ODETerm.t;
  norm : list (list float) -> list float;
  force_monotonic_solve : option bool;
  dt_min : option float;
  dt_max : option float;
  safety : float;
  factor_min : float;
  factor_max : float;
}.

Section Methods.

(** The runtime's [x ** e] on one entry, for a number [e]. *)
Variable pow : float -> float -> float.
(** [torch.jit.is_scripting()]. *)
Variable is_scripting : bool.
(** The floor [PIDState.default] stores. *)
Variable floor : float.

Variable self : t.

Definition dt_factor (state : PIDState.t) (error_ratio : list float) : result (list float) :=
  let order := PIDState.method_order state in
  let* k_I := py_truediv (icoeff self) order in
  let* k_P := py_truediv (pcoeff self) order in
  let* k_D := py_truediv (dcoeff self) order in
  let factor1 := (fun v => pow v (opp (add (add k_I k_P) k_D))) <$> error_ratio in
  let factor2 := (fun v => pow v (add k_P (mul (of_Z 2) k_D)))
                   <$> PIDState.prev_error_ratio state in
  let factor3 := (fun v => pow v (opp k_D)) <$> PIDState.prev_prev_error_ratio state in
  let factor :=
    zip_with mul (zip_with mul ((fun v => mul (safety self) v) <$> factor1) factor2) factor3 in
  Ok (clamp factor (factor_min self) (factor_max self)).

Definition initial_state (method_order : Z) (problem : InitialValueProblem.t)
    (dt_min dt_max : option float) : PIDState.t :=
  PIDState.default floor method_order (InitialValueProblem.batch_size problem) dt_min dt_max.

Definition merge_states (running : list bool) (current previous : PIDState.t) : PIDState.t :=
  PIDState.update_error_ratios current
    (where_ running (PIDState.prev_error_ratio current) (PIDState.prev_error_ratio previous))
    (where_ running (PIDState.prev_prev_error_ratio current)
            (PIDState.prev_prev_error_ratio previous)).

Definition update_state (state : PIDState.t) (y0 : list (list float)) (dt : list float)
    (error_ratio : option (list float)) (accept : option (list bool)) : result PIDState.t :=
  match error_ratio with
  | None =>
      Ok (PIDState.update_error_ratios state
            (ones (length dt))
            (PIDState.prev_error_ratio state))
  | Some error_ratio =>
      match accept with
      | None => Raise AssertionError
      | Some accept =>
          Ok (PIDState.update_error_ratios state
                (where_ accept error_ratio (PIDState.prev_error_ratio state))
                (where_ accept (PIDState.prev_error_ratio state)
                        (PIDState.prev_prev_error_ratio state)))
      end
  end.

Definition adapt_step_size (t0 dt : list float) (y0 : list (list float))
    (step_result : StepResult.t) (state : PIDState.t)
  : result (list bool * list float * PIDState.t * option (list Status)) :=
  let y1 := StepResult.y step_result in
  match StepResult.error_estimate step_result with
  | None =>
      let* new_state := update_state state y0 dt None None in
      Ok ((fun _ => true) <$> dt, dt, new_state, None)
  | Some error_estimate =>
      let error_bounds :=
        add_alpha (atol self) (zip2 maximum_s (map2 abs y0) (map2 abs y1)) (rtol self) in
      let error := map2 abs error_estimate in
      let error_ratio :=
        (fun v => maximum_s v (PIDState.almost_zero state))
          <$> norm self (zip2 div error error_bounds) in
      let accept := (fun v => ltb v one) <$> error_ratio in
      let* factor := dt_factor state error_ratio in
      let dt_next := zip_with mul dt factor in
      let status := where_ss (is_finite <$> error_ratio) SUCCESS INFINITE_NORM in
      let dt_min := PIDState.dt_min state in
      let dt_max := PIDState.dt_max state in
      let dt_next :=
        if is_Some_b dt_min || is_Some_b dt_max
        then (fun v => clamp_opt_s v dt_min dt_max) <$> dt_next
        else dt_next in
      let* new_state := update_state state y0 dt (Some error_ratio) (Some accept) in
      Ok (accept, dt_next, new_state, Some status)
  end.

(** The term the heuristic evaluates: under TorchScript, or when none is
    passed, the call must pass none and the controller's own is taken;
    there must be one in the end. *)
Definition resolve_term (term : option ODETerm.t) : result ODETerm.t :=
  let* term :=
    (if is_scripting || negb (is_Some_b term)
     then if is_Some_b term then Raise AssertionError
          else Ok (PIDController.term self)
     else Ok term) in
  match term with
  | Some tm => Ok tm
  | None => Raise AssertionError
  end.

Definition _select_initial_step (term : option ODETerm.t) (t0 : list float)
    (y0 : list (list float)) (direction dt_max : list float) (convergence_order : Z)
  : result (list float * list (list float)) :=
  let* term := resolve_term term in
  let norm := norm self in
  let f0 := ODETerm.vf term t0 y0 in
  let error_bounds := add_alpha (atol self) (map2 abs y0) (rtol self) in
  let inv_scale := map2 (fun v => div one v) error_bounds in
  let d0 := norm (zip2 mul y0 inv_scale) in
  let d1 := norm (zip2 mul f0 inv_scale) in
  let small_number := lit 1 6 in
  let dt0 :=
    where_st (zip_with orb ((fun v => ltb v (lit 1 5)) <$> d0)
                           ((fun v => ltb v (lit 1 5)) <$> d1))
             small_number
             (zip_with div ((fun v => mul (lit 1 2) v) <$> d0) d1) in
  let dt0 := minimum dt0 dt_max in
  let y1 := addcmul_rows y0 (zip_with mul direction dt0) f0 in
  let f1 := ODETerm.vf term (addcmul t0 direction dt0) y1 in
  let d2 := zip_with div (norm (zip2 mul (zip2 sub f1 f0) inv_scale)) dt0 in
  let maxd1d2 := maximum d1 d2 in
  let* exponent := py_truediv one convergence_order in
  let dt1 :=
    where_ ((fun v => leb v (lit 1 15)) <$> maxd1d2)
           ((fun v => maximum_s small_number (mul v (lit 1 3))) <$> dt0)
           ((fun v => pow (div (lit 1 2) v) exponent) <$> maxd1d2) in
  Ok (zip_with mul direction (minimum ((fun v => mul (of_Z 100) v) <$> dt0) dt1), f0).

Definition init (term : option ODETerm.t) (problem : InitialValueProblem.t)
    (method_order : Z) (dt0 : option (list float))
  : result (list float * PIDState.t * option (list (list float))) :=
  let* first :=
    match dt0 with
    | None =>
        let dt_max :=
          abs <$> zip_with sub (InitialValueProblem.t_end problem)
                               (InitialValueProblem.t_start problem) in
        let* r := _select_initial_step term
                    (InitialValueProblem.t_start problem)
                    (InitialValueProblem.y0 problem)
                    (InitialValueProblem.time_direction problem)
                    dt_max method_order in
        Ok (r.1, Some r.2)
    | Some dt0 => Ok (dt0, None)
    end in
  Ok (first.1, initial_state method_order problem (dt_min self) (dt_max self), first.2).

End Methods.

End PIDController.

(** ** Notions the statements use *)

Module Spec.

Import F64 torch.

(** An int a gain can be divided by: not zero, and small enough for a
    float. *)
Definition order_ok (n : Z) : bool := negb (n =? 0) && is_finite (of_Z n).

(** The PID law of the specification on one batch element:
    safety * e^-(kI+kP+kD) * p^(kP+2kD) * q^(-kD) with the gains divided by
    the order, before clamping. *)
Definition pid_law (pow : float -> float -> float) (self : PIDController.t)
    (order : Z) (e p q : float) : float :=
  let kI := div (PIDController.icoeff self) (of_Z order) in
  let kP := div (PIDController.pcoeff self) (of_Z order) in
  let kD := div (PIDController.dcoeff self) (of_Z order) in
  mul (mul (mul (PIDController.safety self) (pow e (opp (add (add kI kP) kD))))
           (pow p (add kP (mul (of_Z 2) kD))))
      (pow q (opp kD)).

(** The scaled error of a step attempt, one row per batch element:
    |error_estimate| / (atol + rtol * max(|y0|, |y1|)). *)
Definition scaled_error (self : PIDController.t) (y0 y1 error_estimate : list (list float))
  : list (list float) :=
  zip2 div (map2 abs error_estimate)
       (add_alpha (PIDController.atol self)
                  (zip2 maximum_s (map2 abs y0) (map2 abs y1))
                  (PIDController.rtol self)).

(** The error ratio of a step attempt:
    max(norm(scaled error), almost_zero). *)
Definition error_ratio (self : PIDController.t) (state : PIDState.t)
    (y0 y1 error_estimate : list (list float)) : list float :=
  (fun v => maximum_s v (PIDState.almost_zero state))
    <$> PIDController.norm self (scaled_error self y0 y1 error_estimate).

(** A norm that reduces each row on its own. *)
Definition rowwise (norm : list (list float) -> list float)
    (norm_row : list float -> float) : Prop :=
  forall x : list (list float), norm x = norm_row <$> x.

(** A row norm that is plus infinity or NaN on a row with an entry that is
    not finite. *)
Definition propagates (norm_row : list float -> float) : Prop :=
  forall (row : list float) (j : nat) (v : float),
    row !! j = Some v -> is_finite v = false -> inf_or_nan (norm_row row) = true.

(** The first guess of the initial-step heuristic for one batch element,
    before it is capped by dt_max: 1e-6 when d0 or d1 is below 1e-5, else
    0.01 * d0 / d1. *)
Definition first_guess (d0 d1 : float) : float :=
  if ltb d0 (lit 1 5) || ltb d1 (lit 1 5) then lit 1 6
  else div (mul (lit 1 2) d0) d1.

(** The norms d0 and d1 of the heuristic. *)
Definition inv_scale (self : PIDController.t) (y0 : list (list float)) : list (list float) :=
  map2 (fun v => div one v)
       (add_alpha (PIDController.atol self) (map2 abs y0) (PIDController.rtol self)).
Definition d0_of (self : PIDController.t) (y0 : list (list float)) : list float :=
  PIDController.norm self (zip2 mul y0 (inv_scale self y0)).
Definition d1_of (self : PIDController.t) (f0 y0 : list (list float)) : list float :=
  PIDController.norm self (zip2 mul f0 (inv_scale self y0)).

(** The trial step dt0 of the heuristic: the first guess capped by
    dt_max. *)
Definition trial_step (self : PIDController.t) (f0 y0 : list (list float))
    (dt_max : list float) : list float :=
  let d0 := d0_of self y0 in
  let d1 := d1_of self f0 y0 in
  minimum
    (where_st (zip_with orb ((fun v => ltb v (lit 1 5)) <$> d0)
                            ((fun v => ltb v (lit 1 5)) <$> d1))
              (lit 1 6)
              (zip_with div ((fun v => mul (lit 1 2) v) <$> d0) d1))
    dt_max.

(** The norm that d2 divides by dt0: that of the change of the vector
    field over the trial Euler step. *)
Definition d2_numerator (self : PIDController.t) (tm : ODETerm.t) (t0 : list float)
    (y0 : list (list float)) (direction dt0 : list float) : list float :=
  let f0 := ODETerm.vf tm t0 y0 in
  let y1 := addcmul_rows y0 (zip_with mul direction dt0) f0 in
  let f1 := ODETerm.vf tm (addcmul t0 direction dt0) y1 in
  PIDController.norm self (zip2 mul (zip2 sub f1 f0) (inv_scale self y0)).

(** d2: that norm divided by the trial step. *)
Definition d2_of (self : PIDController.t) (tm : ODETerm.t) (t0 : list float)
    (y0 : list (list float)) (direction dt_max : list float) : list float :=
  let dt0 := trial_step self (ODETerm.vf tm t0 y0) y0 dt_max in
  zip_with div (d2_numerator self tm t0 y0 direction dt0) dt0.

(** The second guess dt1 for one batch element, from its trial step and
    its maximum of d1 and d2. *)
Definition second_guess (pow : float -> float -> float) (exponent dt0 maxd1d2 : float)
  : float :=
  if leb maxd1d2 (lit 1 15) then maximum_s (lit 1 6) (mul dt0 (lit 1 3))
  else pow (div (lit 1 2) maxd1d2) exponent.

(** A power that is negative for a negative base only. *)
Definition sign_preserving (pow : float -> float -> float) : Prop :=
  forall x e : float, signbit (pow x e) = Some true -> signbit x = Some true.

(** The states a solve can reach from the initial state of a problem: by
    step attempts, and by merging two states it reached. *)
Inductive reachable (pow : float -> float -> float) (floor : float)
    (self : PIDController.t) (method_order : Z) (problem : InitialValueProblem.t)
    (dt_min dt_max : option float) : PIDState.t -> Prop :=
| reach_initial :
    reachable pow floor self method_order problem dt_min dt_max
      (PIDController.initial_state floor method_order problem dt_min dt_max)
| reach_step (state new_state : PIDState.t) (t0 dt dt_next : list float)
    (y0 : list (list float)) (step_result : StepResult.t) (accept : list bool)
    (status : option (list Status)) :
    reachable pow floor self method_order problem dt_min dt_max state ->
    PIDController.adapt_step_size pow self t0 dt y0 step_result state
      = Ok (accept, dt_next, new_state, status) ->
    reachable pow floor self method_order problem dt_min dt_max new_state
| reach_merge (running : list bool) (current previous : PIDState.t) :
    reachable pow floor self method_order problem dt_min dt_max current ->
    reachable pow floor self method_order problem dt_min dt_max previous ->
    reachable pow floor self method_order problem dt_min dt_max
      (PIDController.merge_states running current previous).

End Spec.

(** ** Concrete collaborators for the closed examples *)

Module Examples.

Import F64 torch.

(** Modelled from the spec: the root-mean-square norm that [norm] defaults
    to (torchode's [rms_norm], which is not among the sources): the square
    root of the mean of the squares of a row. *)
Definition rms_norm_row (row : list float) : float :=
  sqrt (div (foldl add zero ((fun v => mul v v) <$> row))
            (of_Z (Z.of_nat (length row)))).
Definition rms_norm (x : list (list float)) : list float := rms_norm_row <$> x.

(** The powers that are one correctly rounded operation: x ** 0 = 1,
    x ** 1 = x, x ** 2 = x * x and x ** -1 = 1 / x.  No other exponent is
    used by the examples; NaN stands in for them. *)
Definition pow_exact (x e : float) : float :=
  if eqb e zero then one
  else if eqb e one then x
  else if eqb e (of_Z 2) then mul x x
  else if eqb e (of_Z (-1)) then div one x
  else nan.

(** A proportional controller, with the default safety factor and factor
    bounds. *)
Definition p_controller (term : option ODETerm.t) : PIDController.t :=
  PIDController.mk (lit 1 6) (lit 1 3) one zero zero term rms_norm (Some true) None None
                   (lit 9 1) (lit 2 1) (of_Z 10).

(** The same with the factor bounds the wrong way round. *)
Definition inverted_controller : PIDController.t :=
  PIDController.mk (lit 1 6) (lit 1 3) one zero zero None rms_norm (Some true) None None
                   (lit 9 1) (of_Z 10) (lit 2 1).

(** A derivative controller. *)
Definition d_controller : PIDController.t :=
  PIDController.mk (lit 1 6) (lit 1 3) zero zero one None rms_norm (Some true) None None
                   (lit 9 1) (lit 2 1) (of_Z 10).

(** The constant vector field of value [c]. *)
Definition constant_field (c : float) : ODETerm.t :=
  ODETerm.mk (fun _ y => (fun row : list float => (fun _ => c) <$> row) <$> y).

(** A state of one batch element. *)
Definition state1 (order : Z) (prev prev_prev : float) : PIDState.t :=
  PIDState.mk order [prev] [prev_prev] (lit 1 6) None None.

(** A state of two batch elements, with history (0.5, 1.0) in both. *)
Definition state2 : PIDState.t :=
  PIDState.mk 1 [lit 5 1; lit 5 1] [one; one] (lit 1 6) None None.

Definition ctrl : PIDController.t := p_controller None.

(** y' = 0.001. *)
Definition slow_field : ODETerm.t := constant_field (lit 1 3).

(** The problem y' = f(t, y), y(0) = 1 on [0, 0.001], one batch element. *)
Definition short_problem : InitialValueProblem.t :=
  InitialValueProblem.mk [[one]] [zero] [lit 1 3] [one] 1.

End Examples.

(** ** A controller with step-size bounds, for the closed examples *)

Module BoundedExamples.

Import F64 torch Examples.

(** The proportional controller with the step size kept in [0.01, 0.15]. *)
Definition bounded_controller : PIDController.t :=
  PIDController.mk (lit 1 6) (lit 1 3) one zero zero None rms_norm (Some true)
                   (Some (lit 1 2)) (Some (lit 15 2)) (lit 9 1) (lit 2 1) (of_Z 10).

(** A state of one batch element with neutral history and these bounds. *)
Definition bounded_state : PIDState.t :=
  PIDState.mk 1 [one] [one] (lit 1 6) (Some (lit 1 2)) (Some (lit 15 2)).

(** A step whose error estimate 1e-4 against y = 1 gives an error ratio of
    about 0.0999. *)
Definition good_step : StepResult.t := StepResult.mk [[one]] (Some [[lit 1 4]]).

(** A step of two batch elements, with an infinite error estimate in the
    first. *)
Definition half_infinite_step : StepResult.t :=
  StepResult.mk [[one]; [one]] (Some [[infinity]; [lit 1 4]]).

End BoundedExamples.

(** * Properties *)

(** ** The order of binary64 numbers *)

Module F64_facts.

Import F64.

Lemma compare_key x y :
  is_nan x = false -> is_nan y = false ->
  exists c, SFcompare x y = Some c /\
    match c with
    | Lt => lex_lt (key x) (key y)
    | Eq => key x = key y
    | Gt => lex_lt (key y) (key x)
    end.
Proof.
  intros Hx Hy. unfold lex_lt.
  destruct x as [sx|sx| |sx mx ex], y as [sy|sy| |sy my ey]; try discriminate;
    try destruct sx; try destruct sy; simpl; eexists; (split; [reflexivity|]);
    simpl; try lia; try reflexivity.
  all: change (Pos.compare_cont Eq mx my) with (Pos.compare mx my).
  all: destruct (Z.compare_spec ex ey); simpl; try lia.
  all: destruct (Pos.compare_spec mx my); simpl; subst; try lia; reflexivity.
Qed.

Lemma compare_nan_l y : SFcompare S754_nan y = None.
Proof. reflexivity. Qed.

Lemma compare_nan_r x : SFcompare x S754_nan = None.
Proof. destruct x; reflexivity. Qed.

Lemma is_nan_true x : is_nan x = true -> x = S754_nan.
Proof. destruct x; simpl; congruence. Qed.

Lemma ltb_spec x y :
  ltb x y = true <-> is_nan x = false /\ is_nan y = false /\ lex_lt (key x) (key y).
Proof.
  unfold ltb, SFltb. split.
  - destruct (is_nan x) eqn:Hx.
    { apply is_nan_true in Hx. subst. rewrite compare_nan_l. discriminate. }
    destruct (is_nan y) eqn:Hy.
    { apply is_nan_true in Hy. subst. rewrite compare_nan_r. discriminate. }
    destruct (compare_key x y Hx Hy) as (c & -> & Hc). destruct c; try discriminate. auto.
  - intros (Hx & Hy & Hlt). destruct (compare_key x y Hx Hy) as (c & -> & Hc).
    unfold lex_lt in *. destruct c; auto; [rewrite Hc in Hlt|]; lia.
Qed.

Lemma leb_spec x y :
  leb x y = true <-> is_nan x = false /\ is_nan y = false /\ lex_le (key x) (key y).
Proof.
  unfold leb, SFleb. split.
  - destruct (is_nan x) eqn:Hx.
    { apply is_nan_true in Hx. subst. rewrite compare_nan_l. discriminate. }
    destruct (is_nan y) eqn:Hy.
    { apply is_nan_true in Hy. subst. rewrite compare_nan_r. discriminate. }
    destruct (compare_key x y Hx Hy) as (c & -> & Hc). unfold lex_le, lex_lt in *.
    destruct c; try discriminate; intros _; repeat split; auto; [rewrite Hc|]; lia.
  - intros (Hx & Hy & Hlt). destruct (compare_key x y Hx Hy) as (c & -> & Hc).
    unfold lex_lt, lex_le in *. destruct c; auto; lia.
Qed.

Lemma eqb_spec x y :
  eqb x y = true <-> is_nan x = false /\ is_nan y = false /\ key x = key y.
Proof.
  unfold eqb, SFeqb. split.
  - destruct (is_nan x) eqn:Hx.
    { apply is_nan_true in Hx. subst. rewrite compare_nan_l. discriminate. }
    destruct (is_nan y) eqn:Hy.
    { apply is_nan_true in Hy. subst. rewrite compare_nan_r. discriminate. }
    destruct (compare_key x y Hx Hy) as (c & -> & Hc). destruct c; try discriminate. auto.
  - intros (Hx & Hy & Hk). destruct (compare_key x y Hx Hy) as (c & -> & Hc).
    unfold lex_lt in *. destruct c; auto; rewrite Hk in Hc; lia.
Qed.

Lemma ltb_false x y :
  ltb x y = false <-> is_nan x = true \/ is_nan y = true \/ lex_le (key y) (key x).
Proof.
  rewrite <- not_true_iff_false, ltb_spec. unfold lex_lt, lex_le.
  destruct (is_nan x), (is_nan y); intuition (try discriminate; try lia).
Qed.

Lemma leb_false x y :
  leb x y = false <-> is_nan x = true \/ is_nan y = true \/ lex_lt (key y) (key x).
Proof.
  rewrite <- not_true_iff_false, leb_spec. unfold lex_lt, lex_le.
  destruct (is_nan x), (is_nan y); intuition (try discriminate; try lia).
Qed.

Lemma leb_refl x : is_nan x = false -> leb x x = true.
Proof. intros H. apply leb_spec. unfold lex_le. intuition lia. Qed.

Lemma leb_trans x y z : leb x y = true -> leb y z = true -> leb x z = true.
Proof. rewrite !leb_spec. unfold lex_le. intuition lia. Qed.

Lemma ltb_leb_trans x y z : ltb x y = true -> leb y z = true -> ltb x z = true.
Proof. rewrite !ltb_spec, leb_spec. unfold lex_le, lex_lt. intuition lia. Qed.

Lemma ltb_leb x y : ltb x y = true -> leb x y = true.
Proof. rewrite ltb_spec, leb_spec. unfold lex_le, lex_lt. intuition lia. Qed.


Lemma ltb_not_eqb x y : ltb x y = true -> eqb y x = false.
Proof.
  rewrite ltb_spec. intros (_ & _ & H). apply not_true_iff_false.
  rewrite eqb_spec. intros (_ & _ & E). unfold lex_lt in H. rewrite E in H. lia.
Qed.

Lemma leb_not_nan x y : leb x y = true -> is_nan x = false /\ is_nan y = false.
Proof. rewrite leb_spec. tauto. Qed.

Lemma py_truediv_ok x n : Spec.order_ok n = true -> py_truediv x n = Ok (div x (of_Z n)).
Proof.
  unfold Spec.order_ok, py_truediv. intros [Hn Hf]%andb_prop.
  rewrite Hf. simpl. apply negb_true_iff in Hn. rewrite Hn. reflexivity.
Qed.

(** *** Signs and non-finite values through the arithmetic *)

Lemma binary_round_aux_sign sx mx ex lx :
  binary_round_aux prec emax sx mx ex lx = S754_nan \/
  signbit (binary_round_aux prec emax sx mx ex lx) = Some sx.
Proof.
  unfold binary_round_aux.
  destruct (shr_fexp prec emax mx ex lx) as [mrs' e'].
  destruct (shr_fexp prec emax _ e' loc_Exact) as [mrs'' e''].
  destruct (shr_m mrs''); [right; reflexivity| |left; reflexivity].
  destruct (Z.leb e'' (emax - prec)); right; reflexivity.
Qed.

Lemma mul_sign x y (sx sy : bool) :
  signbit x = Some sx -> signbit y = Some sy ->
  mul x y = nan \/ signbit (mul x y) = Some (xorb sx sy).
Proof.
  destruct x as [s|s| |s m e], y as [s'|s'| |s' m' e']; simpl; try discriminate;
    intros [= <-] [= <-]; auto.
  apply binary_round_aux_sign.
Qed.

Lemma div_sign x y (sx sy : bool) :
  signbit x = Some sx -> signbit y = Some sy ->
  div x y = nan \/ signbit (div x y) = Some (xorb sx sy).
Proof.
  destruct x as [s|s| |s m e], y as [s'|s'| |s' m' e']; simpl; try discriminate;
    intros [= <-] [= <-]; auto.
  unfold div, SFdiv.
  destruct (SFdiv_core_binary prec emax (Z.pos m) e (Z.pos m') e') as [[mz ez] lz].
  apply binary_round_aux_sign.
Qed.

Lemma of_Z_pos_sign (p : positive) :
  of_Z (Zpos p) = nan \/ signbit (of_Z (Zpos p)) = Some false.
Proof.
  unfold of_Z, binary_normalize, binary_round.
  destruct (shl_align _ _ _) as [mz ez]. apply binary_round_aux_sign.
Qed.

Lemma signbit_none x : signbit x = None -> x = nan.
Proof. destruct x; simpl; intros H; try discriminate; reflexivity. Qed.

Lemma not_negative_cases x :
  not_negative x = true <-> x = nan \/ signbit x = Some false.
Proof.
  unfold not_negative.
  destruct x as [[]|[]| |[] m e]; simpl; split; intros H;
    try reflexivity; try discriminate;
    try (right; reflexivity); try (left; reflexivity);
    destruct H as [H|H]; discriminate.
Qed.

Lemma not_negative_mul x y :
  not_negative x = true -> not_negative y = true -> not_negative (mul x y) = true.
Proof.
  rewrite !not_negative_cases. intros [->|Hx]; [left; reflexivity|].
  intros [->|Hy]; [left; destruct x; reflexivity|].
  apply (mul_sign x y false false Hx Hy).
Qed.

Lemma not_negative_div x y :
  not_negative x = true -> not_negative y = true -> not_negative (div x y) = true.
Proof.
  rewrite !not_negative_cases. intros [->|Hx]; [left; reflexivity|].
  intros [->|Hy]; [left; destruct x; reflexivity|].
  apply (div_sign x y false false Hx Hy).
Qed.

(** A number that is not below a positive one is not negative. *)
Lemma not_ltb_not_negative x c :
  ltb zero c = true -> ltb x c = false -> not_negative x = true.
Proof.
  rewrite ltb_spec, ltb_false. unfold lex_lt, lex_le. intros (_ & Hc & Hpos).
  rewrite Hc. intros [Hx|[Hx|Hle]]; [apply is_nan_true in Hx; subst; reflexivity|discriminate|].
  simpl in Hpos.
  destruct x as [[]|[]| |[] m e]; simpl in *; try reflexivity; exfalso; lia.
Qed.

Lemma not_leb_not_negative x c :
  ltb zero c = true -> leb x c = false -> not_negative x = true.
Proof.
  rewrite ltb_spec, leb_false. unfold lex_lt. intros (_ & Hc & Hpos).
  rewrite Hc. intros [Hx|[Hx|Hle]]; [apply is_nan_true in Hx; subst; reflexivity|discriminate|].
  simpl in Hpos.
  destruct x as [[]|[]| |[] m e]; simpl in *; try reflexivity; exfalso; lia.
Qed.

(** The product with plus or minus one is NaN or carries its sign. *)
Lemma mul_unit_sign dir x :
  dir = one \/ dir = opp one -> not_negative x = true ->
  mul dir x = nan \/ signbit (mul dir x) = signbit dir.
Proof.
  intros Hdir [->|Hx]%not_negative_cases.
  - left. destruct Hdir as [->| ->]; reflexivity.
  - destruct Hdir as [->| ->].
    + apply (mul_sign one x false false); [reflexivity|exact Hx].
    + apply (mul_sign (opp one) x true false); [reflexivity|exact Hx].
Qed.


(** *** Rounding keeps a large enough number away from zero *)






















(** *** Sums with a term that is not finite *)

Lemma add_inf_or_nan_l a b : inf_or_nan a = true -> inf_or_nan (add a b) = true.
Proof.
  destruct a as [s|s| |s m e]; try destruct s; try discriminate; intros _;
    destruct b as [s'|s'| |s' m' e']; try destruct s'; reflexivity.
Qed.

Lemma add_inf_or_nan_r a b : inf_or_nan b = true -> inf_or_nan (add a b) = true.
Proof.
  destruct b as [s|s| |s m e]; try destruct s; try discriminate; intros _;
    destruct a as [s'|s'| |s' m' e']; try destruct s'; reflexivity.
Qed.

Lemma square_not_finite v : is_finite v = false -> inf_or_nan (mul v v) = true.
Proof. destruct v as [s|s| |s m e]; try destruct s; try discriminate; reflexivity. Qed.

Lemma foldl_add_inf_or_nan (l : list float) (acc : float) :
  inf_or_nan acc = true -> inf_or_nan (foldl add acc l) = true.
Proof.
  revert acc. induction l as [|w l IH]; intros acc Hacc; simpl; [assumption|].
  apply IH, add_inf_or_nan_l, Hacc.
Qed.

Lemma foldl_add_term (l : list float) (acc : float) (j : nat) (w : float) :
  l !! j = Some w -> inf_or_nan w = true -> inf_or_nan (foldl add acc l) = true.
Proof.
  revert acc j. induction l as [|w' l IH]; intros acc j Hj Hw; [discriminate|].
  destruct j as [|j]; simpl in *.
  - injection Hj as ->. apply foldl_add_inf_or_nan, add_inf_or_nan_r, Hw.
  - eapply IH; eassumption.
Qed.

Lemma div_inf_or_nan a n :
  inf_or_nan a = true -> n = nan \/ signbit n = Some false -> inf_or_nan (div a n) = true.
Proof.
  destruct a as [s|s| |s m e]; try destruct s; try discriminate; intros _;
    destruct n as [s'|s'| |s' m' e']; try destruct s'; simpl; intros [H|H];
    try discriminate; reflexivity.
Qed.

Lemma sqrt_inf_or_nan a : inf_or_nan a = true -> inf_or_nan (sqrt a) = true.
Proof. destruct a as [s|s| |s m e]; try destruct s; try discriminate; reflexivity. Qed.

Lemma div_abs_infinity b : is_finite (div (abs infinity) b) = false.
Proof. destruct b as [s'|s'| |s' m' e']; reflexivity. Qed.

End F64_facts.

(** ** Element-wise operations *)

Module torch_facts.

Import F64 torch F64_facts.

Lemma lookup_where_ {A : Type} (c : list bool) (a b : list A) (i : nat) :
  where_ c a b !! i =
  match (c !! i : option bool), (a !! i : option A), (b !! i : option A) with
  | Some ci, Some x, Some y => Some (if ci then x else y)
  | _, _, _ => None
  end.
Proof.
  unfold where_. rewrite !lookup_zip_with.
  destruct (c !! i), (a !! i), (b !! i); reflexivity.
Qed.

Lemma lookup_where_ss {A : Type} (c : list bool) (a b : A) (i : nat) :
  where_ss c a b !! i = (fun ci : bool => if ci then a else b) <$> c !! i.
Proof. unfold where_ss. apply list_lookup_fmap. Qed.

Lemma lookup_where_st {A : Type} (c : list bool) (a : A) (b : list A) (i : nat) :
  where_st c a b !! i =
  match (c !! i : option bool), (b !! i : option A) with
  | Some ci, Some y => Some (if ci then a else y)
  | _, _ => None
  end.
Proof.
  unfold where_st. rewrite lookup_zip_with.
  destruct (c !! i), (b !! i); reflexivity.
Qed.

Lemma lookup_map2 (f : float -> float) (x : list (list float)) (i : nat) :
  map2 f x !! i = (fun row : list float => f <$> row) <$> x !! i.
Proof. unfold map2. apply list_lookup_fmap. Qed.

Lemma lookup_zip2 (f : float -> float -> float) (x y : list (list float)) (i : nat) :
  zip2 f x y !! i =
  match (x !! i : option (list float)), (y !! i : option (list float)) with
  | Some a, Some b => Some (zip_with f a b)
  | _, _ => None
  end.
Proof.
  unfold zip2. rewrite lookup_zip_with. destruct (x !! i), (y !! i); reflexivity.
Qed.

(** An all-true mask selects the first branch, an all-false mask the
    second, when the shapes agree. *)
Lemma where_all_true {A : Type} (c : list bool) (a b : list A) :
  length c = length a -> length b = length a ->
  (forall i ci, c !! i = Some ci -> ci = true) ->
  where_ c a b = a.
Proof.
  intros Hc Hb Hall. apply list_eq. intros i. rewrite lookup_where_.
  destruct (a !! i) as [x|] eqn:Ha.
  - destruct (lookup_lt_is_Some_2 c i) as [ci Hci].
    { rewrite Hc. eapply lookup_lt_Some, Ha. }
    destruct (lookup_lt_is_Some_2 b i) as [y Hy].
    { rewrite Hb. eapply lookup_lt_Some, Ha. }
    rewrite Hci, Hy. rewrite (Hall i ci Hci). reflexivity.
  - destruct (c !! i); reflexivity.
Qed.

Lemma where_all_false {A : Type} (c : list bool) (a b : list A) :
  length c = length b -> length a = length b ->
  (forall i ci, c !! i = Some ci -> ci = false) ->
  where_ c a b = b.
Proof.
  intros Hc Ha Hall. apply list_eq. intros i. rewrite lookup_where_.
  destruct (b !! i) as [y|] eqn:Hb.
  - destruct (lookup_lt_is_Some_2 c i) as [ci Hci].
    { rewrite Hc. eapply lookup_lt_Some, Hb. }
    destruct (lookup_lt_is_Some_2 a i) as [x Hx].
    { rewrite Ha. eapply lookup_lt_Some, Hb. }
    rewrite Hci, Hx. rewrite (Hall i ci Hci). reflexivity.
  - destruct (c !! i), (a !! i); reflexivity.
Qed.

(** [std::max], [std::min] and the clamp on numbers that are not NaN. *)
Lemma std_max_ge_r x lo :
  is_nan x = false -> is_nan lo = false -> leb lo (std_max x lo) = true.
Proof.
  intros Hx Hlo. unfold std_max. destruct (ltb x lo) eqn:E.
  - apply leb_refl, Hlo.
  - apply ltb_false in E. apply leb_spec. intuition congruence.
Qed.

Lemma std_max_not_nan x lo :
  is_nan x = false -> is_nan lo = false -> is_nan (std_max x lo) = false.
Proof. intros Hx Hlo. unfold std_max. destruct (ltb x lo); assumption. Qed.

Lemma std_min_le_r v hi :
  is_nan v = false -> is_nan hi = false -> leb (std_min v hi) hi = true.
Proof.
  intros Hv Hhi. unfold std_min. destruct (ltb hi v) eqn:E.
  - apply leb_refl, Hhi.
  - apply ltb_false in E. apply leb_spec. intuition congruence.
Qed.

Lemma std_min_ge lo v hi :
  leb lo v = true -> leb lo hi = true -> leb lo (std_min v hi) = true.
Proof. intros Hv Hhi. unfold std_min. destruct (ltb hi v); assumption. Qed.

Lemma clamp_s_bounds x lo hi :
  is_nan x = false -> leb lo hi = true ->
  leb lo (clamp_s x lo hi) = true /\ leb (clamp_s x lo hi) hi = true.
Proof.
  intros Hx Hb. destruct (leb_not_nan _ _ Hb) as [Hlo Hhi].
  unfold clamp_s. rewrite Hlo, Hhi, Hx. cbn [orb]. split.
  - apply std_min_ge; [apply std_max_ge_r|]; assumption.
  - apply std_min_le_r; [apply std_max_not_nan|]; assumption.
Qed.

Lemma clamp_s_nan x lo hi : is_nan x = true -> clamp_s x lo hi = nan.
Proof.
  intros Hx. unfold clamp_s. destruct (is_nan lo || is_nan hi); [reflexivity|].
  rewrite Hx. apply is_nan_true, Hx.
Qed.

Lemma clamp_s_nan_bound x lo hi :
  is_nan lo = true \/ is_nan hi = true -> clamp_s x lo hi = nan.
Proof.
  intros H. unfold clamp_s. destruct (is_nan lo), (is_nan hi); try reflexivity.
  destruct H; discriminate.
Qed.

(** [torch.maximum] against a floor: NaN, or at least the floor. *)
Lemma maximum_s_ge v floor :
  is_nan v = false -> is_nan floor = false -> leb floor (maximum_s v floor) = true.
Proof.
  intros Hv Hf. unfold maximum_s. rewrite Hv, Hf. simpl. apply std_max_ge_r; assumption.
Qed.

Lemma maximum_s_nan v floor :
  is_nan v = true \/ is_nan floor = true -> maximum_s v floor = nan.
Proof.
  intros H. unfold maximum_s. destruct (is_nan v), (is_nan floor); try reflexivity.
  destruct H; discriminate.
Qed.

Lemma maximum_s_cases v floor :
  maximum_s v floor = nan \/ leb floor (maximum_s v floor) = true.
Proof.
  destruct (is_nan v) eqn:Hv; [left; apply maximum_s_nan; auto|].
  destruct (is_nan floor) eqn:Hf; [left; apply maximum_s_nan; auto|].
  right. apply maximum_s_ge; assumption.
Qed.


Lemma minimum_s_le g m : minimum_s g m = nan \/ leb (minimum_s g m) m = true.
Proof.
  unfold minimum_s.
  destruct (is_nan g) eqn:Hg; simpl; [left; reflexivity|].
  destruct (is_nan m) eqn:Hm; simpl; [left; reflexivity|].
  right. apply std_min_le_r; assumption.
Qed.


Lemma not_negative_minimum_s x y :
  not_negative x = true -> not_negative y = true -> not_negative (minimum_s x y) = true.
Proof.
  intros Hx Hy. unfold minimum_s, std_min.
  destruct (is_nan x || is_nan y); [reflexivity|]. destruct (ltb y x); assumption.
Qed.

Lemma not_negative_maximum_s x y :
  not_negative x = true -> not_negative y = true -> not_negative (maximum_s x y) = true.
Proof.
  intros Hx Hy. unfold maximum_s, std_max.
  destruct (is_nan x || is_nan y); [reflexivity|]. destruct (ltb x y); assumption.
Qed.

Lemma maximum_s_inf_or_nan v floor :
  inf_or_nan v = true -> is_finite (maximum_s v floor) = false.
Proof.
  destruct v as [s|s| |s m e]; try destruct s; try discriminate; intros _; [|reflexivity].
  unfold maximum_s. simpl. destruct (is_nan floor); [reflexivity|].
  unfold std_max. destruct floor as [s'|s'| |s' m' e']; try destruct s'; reflexivity.
Qed.

(** The default norm is plus infinity or NaN on a row with an entry that
    is not finite. *)
Lemma rms_norm_propagates : Spec.propagates Examples.rms_norm_row.
Proof.
  intros row j v Hj Hv. unfold Examples.rms_norm_row.
  apply sqrt_inf_or_nan, div_inf_or_nan.
  - apply (foldl_add_term _ _ j (mul v v)); [|apply square_not_finite, Hv].
    rewrite list_lookup_fmap, Hj. reflexivity.
  - destruct row as [|w row]; [discriminate|]. apply of_Z_pos_sign.
Qed.

Lemma rms_norm_rowwise : Spec.rowwise Examples.rms_norm Examples.rms_norm_row.
Proof. intros x. reflexivity. Qed.

End torch_facts.

(** ** The controller *)

Section Controller.

Import F64 torch F64_facts torch_facts.

Variable pow : float -> float -> float.
Variable self : PIDController.t.

(** With an order it can divide by, [dt_factor] returns the clamped
    product of its three factors. *)
Lemma dt_factor_ok (state : PIDState.t) (error_ratio : list float) :
  Spec.order_ok (PIDState.method_order state) = true ->
  let order := of_Z (PIDState.method_order state) in
  let k_I := div (PIDController.icoeff self) order in
  let k_P := div (PIDController.pcoeff self) order in
  let k_D := div (PIDController.dcoeff self) order in
  PIDController.dt_factor pow self state error_ratio =
  Ok (clamp
        (zip_with mul
           (zip_with mul
              ((fun v => mul (PIDController.safety self) v)
                 <$> ((fun v => pow v (opp (add (add k_I k_P) k_D))) <$> error_ratio))
              ((fun v => pow v (add k_P (mul (of_Z 2) k_D)))
                 <$> PIDState.prev_error_ratio state))
           ((fun v => pow v (opp k_D)) <$> PIDState.prev_prev_error_ratio state))
        (PIDController.factor_min self) (PIDController.factor_max self)).
Proof.
  intros Hok. unfold PIDController.dt_factor.
  rewrite !(py_truediv_ok _ _ Hok). reflexivity.
Qed.

Lemma lookup_dt_factor (state : PIDState.t) (error_ratio : list float)
    (i : nat) (e p q : float) :
  Spec.order_ok (PIDState.method_order state) = true ->
  error_ratio !! i = Some e ->
  PIDState.prev_error_ratio state !! i = Some p ->
  PIDState.prev_prev_error_ratio state !! i = Some q ->
  exists factor,
    PIDController.dt_factor pow self state error_ratio = Ok factor /\
    factor !! i =
    Some (clamp_s (Spec.pid_law pow self (PIDState.method_order state) e p q)
                  (PIDController.factor_min self) (PIDController.factor_max self)).
Proof.
  intros Hok He Hp Hq. eexists. split; [apply dt_factor_ok, Hok|].
  unfold clamp. rewrite list_lookup_fmap, !lookup_zip_with, !list_lookup_fmap.
  rewrite He, Hp, Hq. reflexivity.
Qed.

(** What a step attempt with an error estimate returns. *)
Lemma adapt_step_size_some (t0 dt : list float) (y0 y1 error_estimate : list (list float))
    (state : PIDState.t) :
  Spec.order_ok (PIDState.method_order state) = true ->
  let error_ratio := Spec.error_ratio self state y0 y1 error_estimate in
  let accept := (fun v => ltb v one) <$> error_ratio in
  exists dt_next,
    PIDController.adapt_step_size pow self t0 dt y0
      (StepResult.mk y1 (Some error_estimate)) state =
    Ok (accept, dt_next,
        PIDState.update_error_ratios state
          (where_ accept error_ratio (PIDState.prev_error_ratio state))
          (where_ accept (PIDState.prev_error_ratio state)
                  (PIDState.prev_prev_error_ratio state)),
        Some (where_ss (is_finite <$> error_ratio) SUCCESS INFINITE_NORM)).
Proof.
  intros Hok error_ratio accept.
  unfold PIDController.adapt_step_size. simpl.
  fold (Spec.scaled_error self y0 y1 error_estimate).
  fold (Spec.error_ratio self state y0 y1 error_estimate). fold error_ratio.
  rewrite (dt_factor_ok state error_ratio Hok). simpl. eexists. reflexivity.
Qed.

(** With a zero order the gains cannot be divided: a step attempt with an
    error estimate raises before any state is returned. *)
Lemma adapt_step_size_zero_order (t0 dt : list float) (y0 y1 error_estimate : list (list float))
    (state : PIDState.t) :
  PIDState.method_order state = 0 ->
  PIDController.adapt_step_size pow self t0 dt y0
    (StepResult.mk y1 (Some error_estimate)) state = Raise ZeroDivisionError.
Proof.
  intros Hzero. unfold PIDController.adapt_step_size, PIDController.dt_factor. simpl.
  rewrite Hzero. reflexivity.
Qed.

(** The scaled error entry by entry: |error| over the bound
    atol + rtol * max(|y0|, |y1|), the sum rounded once. *)
Lemma scaled_error_entries (y0 y1 error_estimate : list (list float)) :
  Spec.scaled_error self y0 y1 error_estimate =
  zip_with (zip_with (fun c bound => div (abs c) bound)) error_estimate
    (zip_with
       (zip_with (fun a b => fma (maximum_s (abs a) (abs b)) (PIDController.rtol self)
                               (PIDController.atol self)))
       y0 y1).
Proof.
  unfold Spec.scaled_error, add_alpha. apply list_eq. intros i.
  rewrite lookup_zip2, !lookup_map2, lookup_zip2, !lookup_map2, !lookup_zip_with.
  destruct (error_estimate !! i) as [row|], (y0 !! i) as [r0|], (y1 !! i) as [r1|];
    try reflexivity.
  cbn [fmap option_fmap option_map mbind option_bind]. f_equal.
  apply list_eq. intros j.
  rewrite !lookup_zip_with, !list_lookup_fmap, lookup_zip_with, !list_lookup_fmap.
  destruct (row !! j), (r0 !! j), (r1 !! j); reflexivity.
Qed.

(** C9: [merge_states] selects only the two history fields; the order, the
    step-size bounds and the floor of the result are those of [current]
    under every mask. *)
Theorem merge_states_frame (running : list bool) (current previous : PIDState.t) :
  let merged := PIDController.merge_states running current previous in
  PIDState.method_order merged = PIDState.method_order current /\
  PIDState.dt_min merged = PIDState.dt_min current /\
  PIDState.dt_max merged = PIDState.dt_max current /\
  PIDState.almost_zero merged = PIDState.almost_zero current /\
  PIDState.prev_error_ratio merged =
    where_ running (PIDState.prev_error_ratio current) (PIDState.prev_error_ratio previous) /\
  PIDState.prev_prev_error_ratio merged =
    where_ running (PIDState.prev_prev_error_ratio current)
           (PIDState.prev_prev_error_ratio previous).
Proof. repeat split. Qed.

(** C4: without an error estimate the step is accepted for every batch
    element, the step size is returned as it came, no status is reported,
    and the history becomes (ones, old prev_error_ratio). *)
Theorem adapt_step_size_no_error_estimate (t0 dt : list float) (y0 y1 : list (list float))
    (state : PIDState.t) :
  exists accept new_state,
    PIDController.adapt_step_size pow self t0 dt y0 (StepResult.mk y1 None) state =
      Ok (accept, dt, new_state, None) /\
    length accept = length dt /\
    (forall (i : nat) (a : bool), accept !! i = Some a -> a = true) /\
    length (PIDState.prev_error_ratio new_state) = length dt /\
    (forall (i : nat) (v : float),
        PIDState.prev_error_ratio new_state !! i = Some v -> v = one) /\
    PIDState.prev_prev_error_ratio new_state = PIDState.prev_error_ratio state /\
    new_state =
      PIDState.update_error_ratios state (ones (length dt)) (PIDState.prev_error_ratio state).
Proof.
  eexists. eexists. split; [reflexivity|]. simpl.
  split; [apply length_fmap|].
  split.
  { intros i a. rewrite list_lookup_fmap. destruct (dt !! i); simpl; congruence. }
  split; [apply length_replicate|].
  split; [|split; reflexivity].
  intros i v [-> _]%lookup_replicate. reflexivity.
Qed.

(** C2: for a step attempt with an error estimate, the returned state holds
    per batch element: where the step is accepted, the current error ratio
    in prev_error_ratio and the old prev_error_ratio in
    prev_prev_error_ratio; where it is rejected, the old values.  The
    error ratio is max(norm(|error| / (atol + rtol * max(|y0|, |y1|))),
    almost_zero), the sum rounded once, and the step is accepted where it
    is below 1.  When every element is rejected the state is returned as it
    came, and the same call on the returned state gives the same result
    again. *)
Theorem adapt_step_size_history (t0 dt : list float) (y0 y1 error_estimate : list (list float))
    (state : PIDState.t) :
  Spec.order_ok (PIDState.method_order state) = true ->
  let error_bounds :=
    zip_with
      (zip_with (fun a b => fma (maximum_s (abs a) (abs b)) (PIDController.rtol self)
                              (PIDController.atol self)))
      y0 y1 in
  let error_ratio :=
    (fun v => maximum_s v (PIDState.almost_zero state))
      <$> PIDController.norm self
            (zip_with (zip_with (fun c bound => div (abs c) bound)) error_estimate
                      error_bounds) in
  let step_result := StepResult.mk y1 (Some error_estimate) in
  exists accept dt_next new_state status,
    PIDController.adapt_step_size pow self t0 dt y0 step_result state =
      Ok (accept, dt_next, new_state, status) /\
    accept = (fun e => ltb e one) <$> error_ratio /\
    (forall (i : nat) (a : bool) (e p q : float),
        accept !! i = Some a ->
        error_ratio !! i = Some e ->
        PIDState.prev_error_ratio state !! i = Some p ->
        PIDState.prev_prev_error_ratio state !! i = Some q ->
        PIDState.prev_error_ratio new_state !! i = Some (if a then e else p) /\
        PIDState.prev_prev_error_ratio new_state !! i = Some (if a then p else q)) /\
    PIDState.method_order new_state = PIDState.method_order state /\
    PIDState.almost_zero new_state = PIDState.almost_zero state /\
    PIDState.dt_min new_state = PIDState.dt_min state /\
    PIDState.dt_max new_state = PIDState.dt_max state /\
    (length (PIDState.prev_error_ratio state) = length error_ratio ->
     length (PIDState.prev_prev_error_ratio state) = length error_ratio ->
     (forall (i : nat) (a : bool), accept !! i = Some a -> a = false) ->
     new_state = state /\
     PIDController.adapt_step_size pow self t0 dt y0 step_result new_state =
       Ok (accept, dt_next, new_state, status)).
Proof.
  intros Hok error_bounds error_ratio step_result.
  destruct (adapt_step_size_some t0 dt y0 y1 error_estimate state Hok) as [dt_next Hrun].
  assert (Hratio : Spec.error_ratio self state y0 y1 error_estimate = error_ratio).
  { unfold Spec.error_ratio. rewrite scaled_error_entries. reflexivity. }
  rewrite Hratio in Hrun. fold step_result in Hrun.
  eexists _, dt_next, _, _. split; [exact Hrun|]. split; [reflexivity|]. split.
  { intros i a e p q Ha He Hp Hq. simpl.
    rewrite !lookup_where_, Ha, He, Hp, Hq. split; reflexivity. }
  do 4 (split; [reflexivity|]).
  intros Hlp Hlq Hrej.
  assert (Hla : length ((fun v => ltb v one) <$> error_ratio) = length error_ratio)
    by apply length_fmap.
  assert (Hsame :
    PIDState.update_error_ratios state
      (where_ ((fun v => ltb v one) <$> error_ratio) error_ratio
              (PIDState.prev_error_ratio state))
      (where_ ((fun v => ltb v one) <$> error_ratio) (PIDState.prev_error_ratio state)
              (PIDState.prev_prev_error_ratio state)) = state).
  { rewrite !where_all_false by (assumption || congruence).
    destruct state; reflexivity. }
  rewrite Hsame. split; [reflexivity|]. rewrite Hsame in Hrun. exact Hrun.
Qed.


(** C1 (amended): for an order the gains can be divided by, [dt_factor]
    returns per batch element clamp(safety * e^-(kI+kP+kD) * p^(kP+2kD) *
    q^(-kD), factor_min, factor_max) with kI = icoeff/order,
    kP = pcoeff/order, kD = dcoeff/order.  The returned factor lies in
    [factor_min, factor_max] when factor_min <= factor_max and the product
    is not NaN; a NaN product is returned as NaN, and with a NaN factor_min
    or factor_max every factor is NaN. *)
Theorem dt_factor_clamped_law (state : PIDState.t) (error_ratio : list float)
    (i : nat) (e p q : float) :
  Spec.order_ok (PIDState.method_order state) = true ->
  error_ratio !! i = Some e ->
  PIDState.prev_error_ratio state !! i = Some p ->
  PIDState.prev_prev_error_ratio state !! i = Some q ->
  let product := Spec.pid_law pow self (PIDState.method_order state) e p q in
  let lo := PIDController.factor_min self in
  let hi := PIDController.factor_max self in
  exists factor,
    PIDController.dt_factor pow self state error_ratio = Ok factor /\
    factor !! i = Some (clamp_s product lo hi) /\
    (is_nan product = false -> leb lo hi = true ->
     leb lo (clamp_s product lo hi) = true /\ leb (clamp_s product lo hi) hi = true) /\
    (is_nan product = true -> clamp_s product lo hi = nan) /\
    (is_nan lo = true \/ is_nan hi = true -> clamp_s product lo hi = nan).
Proof.
  intros Hok He Hp Hq product lo hi.
  destruct (lookup_dt_factor state error_ratio i e p q Hok He Hp Hq) as (factor & Hrun & Hi).
  exists factor. split; [exact Hrun|]. split; [exact Hi|]. split; [|split].
  - apply clamp_s_bounds.
  - apply clamp_s_nan.
  - apply clamp_s_nan_bound.
Qed.

(** C6 (amended): [merge_states] selects the history per batch element,
    current's where the mask is true and previous's where it is false.
    With an all-true mask the result is current; with an all-false mask
    the result has previous's history and current's other fields, so it is
    previous exactly when the two states agree on those; and the result at
    one element depends on the inputs at that element only. *)
Theorem merge_states_select (running : list bool) (current previous : PIDState.t) :
  let merged := PIDController.merge_states running current previous in
  (forall (i : nat) (r : bool) (c p c' p' : float),
      running !! i = Some r ->
      PIDState.prev_error_ratio current !! i = Some c ->
      PIDState.prev_error_ratio previous !! i = Some p ->
      PIDState.prev_prev_error_ratio current !! i = Some c' ->
      PIDState.prev_prev_error_ratio previous !! i = Some p' ->
      PIDState.prev_error_ratio merged !! i = Some (if r then c else p) /\
      PIDState.prev_prev_error_ratio merged !! i = Some (if r then c' else p')) /\
  (length running = length (PIDState.prev_error_ratio current) ->
   length running = length (PIDState.prev_prev_error_ratio current) ->
   length running = length (PIDState.prev_error_ratio previous) ->
   length running = length (PIDState.prev_prev_error_ratio previous) ->
   ((forall (i : nat) (r : bool), running !! i = Some r -> r = true) -> merged = current) /\
   ((forall (i : nat) (r : bool), running !! i = Some r -> r = false) ->
    PIDState.prev_error_ratio merged = PIDState.prev_error_ratio previous /\
    PIDState.prev_prev_error_ratio merged = PIDState.prev_prev_error_ratio previous /\
    PIDState.method_order merged = PIDState.method_order current /\
    PIDState.almost_zero merged = PIDState.almost_zero current /\
    PIDState.dt_min merged = PIDState.dt_min current /\
    PIDState.dt_max merged = PIDState.dt_max current /\
    (merged = previous <->
     PIDState.method_order current = PIDState.method_order previous /\
     PIDState.almost_zero current = PIDState.almost_zero previous /\
     PIDState.dt_min current = PIDState.dt_min previous /\
     PIDState.dt_max current = PIDState.dt_max previous))) /\
  (forall (running' : list bool) (current' previous' : PIDState.t) (i : nat),
      running' !! i = running !! i ->
      PIDState.prev_error_ratio current' !! i = PIDState.prev_error_ratio current !! i ->
      PIDState.prev_error_ratio previous' !! i = PIDState.prev_error_ratio previous !! i ->
      PIDState.prev_prev_error_ratio current' !! i
        = PIDState.prev_prev_error_ratio current !! i ->
      PIDState.prev_prev_error_ratio previous' !! i
        = PIDState.prev_prev_error_ratio previous !! i ->
      let merged' := PIDController.merge_states running' current' previous' in
      PIDState.prev_error_ratio merged' !! i = PIDState.prev_error_ratio merged !! i /\
      PIDState.prev_prev_error_ratio merged' !! i
        = PIDState.prev_prev_error_ratio merged !! i).
Proof.
  intros merged. split; [|split].
  - intros i r c p c' p' Hr Hc Hp Hc' Hp'. subst merged. simpl.
    rewrite !lookup_where_, Hr, Hc, Hp, Hc', Hp'. split; reflexivity.
  - intros L1 L2 L3 L4. split.
    + intros Hall. subst merged. unfold PIDController.merge_states.
      rewrite !where_all_true by (assumption || congruence).
      destruct current; reflexivity.
    + intros Hall. subst merged. unfold PIDController.merge_states.
      rewrite !where_all_false by (assumption || congruence).
      do 6 (split; [reflexivity|]).
      destruct current, previous; unfold PIDState.update_error_ratios; simpl. split.
      * intros [= -> -> -> ->]. repeat split; reflexivity.
      * intros (-> & -> & -> & ->). reflexivity.
  - intros running' current' previous' i Hr Hc Hp Hc' Hp' merged'.
    subst merged merged'. simpl. rewrite !lookup_where_, Hr, Hc, Hp, Hc', Hp'.
    split; reflexivity.
Qed.

End Controller.

(** ** Status codes *)

Section Status.

Import F64 torch F64_facts torch_facts.

Variable pow : float -> float -> float.
Variable self : PIDController.t.

Lemma lookup_scaled_error (y0 y1 error_estimate : list (list float)) (i : nat) :
  Spec.scaled_error self y0 y1 error_estimate !! i =
  match (error_estimate !! i : option (list float)),
        (y0 !! i : option (list float)), (y1 !! i : option (list float)) with
  | Some row, Some r0, Some r1 =>
      Some (zip_with div (abs <$> row)
              ((fun v => fma v (PIDController.rtol self) (PIDController.atol self))
                 <$> zip_with maximum_s (abs <$> r0) (abs <$> r1)))
  | _, _, _ => None
  end.
Proof.
  unfold Spec.scaled_error, add_alpha.
  rewrite lookup_zip2, !lookup_map2, lookup_zip2, !lookup_map2.
  destruct (error_estimate !! i), (y0 !! i), (y1 !! i); reflexivity.
Qed.

Lemma lookup_error_ratio_rowwise (norm_row : list float -> float) (state : PIDState.t)
    (y0 y1 error_estimate : list (list float)) (i : nat) :
  Spec.rowwise (PIDController.norm self) norm_row ->
  Spec.error_ratio self state y0 y1 error_estimate !! i =
  (fun row => maximum_s (norm_row row) (PIDState.almost_zero state))
    <$> Spec.scaled_error self y0 y1 error_estimate !! i.
Proof.
  intros Hrow. unfold Spec.error_ratio. rewrite Hrow, !list_lookup_fmap.
  destruct (Spec.scaled_error self y0 y1 error_estimate !! i); reflexivity.
Qed.

(** C5: for a step attempt with an error estimate no exception is raised,
    and the status is per batch element SUCCESS exactly where the error
    ratio is finite and INFINITE_NORM exactly where it is not.  For a norm
    that reduces each row on its own and is infinite or NaN on a row with
    a non-finite entry, as the default norm is: an element with plus
    infinity in its error estimate gets INFINITE_NORM, and the status of an
    element does not change with the error estimates of the others. *)
Theorem adapt_step_size_status (t0 dt : list float) (y0 y1 error_estimate : list (list float))
    (state : PIDState.t) :
  Spec.order_ok (PIDState.method_order state) = true ->
  let error_ratio := Spec.error_ratio self state y0 y1 error_estimate in
  exists accept dt_next new_state status,
    PIDController.adapt_step_size pow self t0 dt y0
      (StepResult.mk y1 (Some error_estimate)) state =
      Ok (accept, dt_next, new_state, Some status) /\
    length status = length error_ratio /\
    (forall (i : nat) (e : float), error_ratio !! i = Some e ->
       status !! i = Some (if is_finite e then SUCCESS else INFINITE_NORM) /\
       (status !! i = Some SUCCESS <-> is_finite e = true) /\
       (status !! i = Some INFINITE_NORM <-> is_finite e = false)) /\
    (forall norm_row : list float -> float,
       Spec.rowwise (PIDController.norm self) norm_row ->
       Spec.propagates norm_row ->
       (forall (i j : nat) (row r0 r1 : list float) (b0 b1 : float),
           error_estimate !! i = Some row -> row !! j = Some infinity ->
           y0 !! i = Some r0 -> r0 !! j = Some b0 ->
           y1 !! i = Some r1 -> r1 !! j = Some b1 ->
           status !! i = Some INFINITE_NORM) /\
       (forall (other : list (list float)) (i : nat),
           other !! i = error_estimate !! i ->
           exists accept' dt_next' new_state' status',
             PIDController.adapt_step_size pow self t0 dt y0
               (StepResult.mk y1 (Some other)) state =
               Ok (accept', dt_next', new_state', Some status') /\
             status' !! i = status !! i)).
Proof.
  intros Hok error_ratio.
  destruct (adapt_step_size_some pow self t0 dt y0 y1 error_estimate state Hok)
    as [dt_next Hrun].
  fold error_ratio in Hrun.
  eexists _, dt_next, _, _. split; [exact Hrun|].
  split; [unfold where_ss; rewrite !length_fmap; reflexivity|].
  split.
  - intros i e He. rewrite lookup_where_ss, list_lookup_fmap, He. simpl.
    destruct (is_finite e); repeat split; congruence.
  - intros norm_row Hrow Hprop. split.
    + intros i j row r0 r1 b0 b1 Hi Hj Hy0 Hb0 Hy1 Hb1.
      rewrite lookup_where_ss, list_lookup_fmap. subst error_ratio.
      rewrite (lookup_error_ratio_rowwise norm_row) by exact Hrow.
      rewrite lookup_scaled_error, Hi, Hy0, Hy1. simpl.
      rewrite maximum_s_inf_or_nan; [reflexivity|].
      apply (Hprop _ j (div (abs infinity)
               (fma (maximum_s (abs b0) (abs b1)) (PIDController.rtol self)
                    (PIDController.atol self)))).
      * rewrite lookup_zip_with, !list_lookup_fmap, lookup_zip_with, !list_lookup_fmap.
        rewrite Hj, Hb0, Hb1. reflexivity.
      * apply div_abs_infinity.
    + intros other i Hsame.
      destruct (adapt_step_size_some pow self t0 dt y0 y1 other state Hok)
        as [dt_next' Hrun'].
      eexists _, dt_next', _, _. split; [exact Hrun'|].
      rewrite !lookup_where_ss, !list_lookup_fmap. subst error_ratio.
      rewrite !(lookup_error_ratio_rowwise norm_row) by exact Hrow.
      rewrite !lookup_scaled_error, Hsame. reflexivity.
Qed.

End Status.

(** ** The floor under the error ratios *)

Section Floor.

Import F64 torch F64_facts torch_facts.

Variable pow : float -> float -> float.
Variable floor : float.
Variable self : PIDController.t.

(** The state a step attempt returns. *)
Lemma adapt_step_size_state (t0 dt : list float) (y0 : list (list float))
    (step_result : StepResult.t) (state new_state : PIDState.t)
    (accept : list bool) (dt_next : list float) (status : option (list Status)) :
  PIDController.adapt_step_size pow self t0 dt y0 step_result state
    = Ok (accept, dt_next, new_state, status) ->
  (StepResult.error_estimate step_result = None /\
   new_state = PIDState.update_error_ratios state (ones (length dt))
                 (PIDState.prev_error_ratio state)) \/
  (exists error_estimate,
      StepResult.error_estimate step_result = Some error_estimate /\
      let error_ratio :=
        Spec.error_ratio self state y0 (StepResult.y step_result) error_estimate in
      accept = (fun v => ltb v one) <$> error_ratio /\
      new_state =
        PIDState.update_error_ratios state
          (where_ accept error_ratio (PIDState.prev_error_ratio state))
          (where_ accept (PIDState.prev_error_ratio state)
                  (PIDState.prev_prev_error_ratio state))).
Proof.
  unfold PIDController.adapt_step_size.
  destruct step_result as [y1 [error_estimate|]]; simpl.
  - fold (Spec.scaled_error self y0 y1 error_estimate).
    fold (Spec.error_ratio self state y0 y1 error_estimate).
    destruct (PIDController.dt_factor pow self state _) as [factor|]; simpl; [|discriminate].
    intros [= <- _ <- _]. right. eexists. split; [reflexivity|]. split; reflexivity.
  - intros [= _ _ <- _]. left. split; reflexivity.
Qed.

Hypothesis floor_positive : ltb zero floor = true.
Hypothesis floor_le_one : leb floor one = true.

Lemma above_floor_nonzero (v : float) : leb floor v = true -> eqb v zero = false.
Proof. intros Hv. apply ltb_not_eqb. eapply ltb_leb_trans; eassumption. Qed.

Lemma floor_not_nan : is_nan floor = false.
Proof. apply (leb_not_nan _ _ floor_le_one). Qed.

(** An accepted error ratio is at least the floor. *)
Lemma accepted_above_floor (n : float) :
  ltb (maximum_s n floor) one = true -> leb floor (maximum_s n floor) = true.
Proof.
  intros Hacc. destruct (maximum_s_cases n floor) as [E|E]; [|exact E].
  rewrite E in Hacc. discriminate.
Qed.

Lemma reachable_invariant (method_order : Z) (problem : InitialValueProblem.t)
    (dt_min dt_max : option float) (state : PIDState.t) :
  Spec.reachable pow floor self method_order problem dt_min dt_max state ->
  PIDState.almost_zero state = floor /\
  (forall (i : nat) (v : float),
      PIDState.prev_error_ratio state !! i = Some v -> leb floor v = true) /\
  (forall (i : nat) (v : float),
      PIDState.prev_prev_error_ratio state !! i = Some v -> leb floor v = true).
Proof.
  induction 1 as [|state new_state t0 dt dt_next y0 step_result accept status _ IH Hrun
                  |running current previous _ IHc _ IHp].
  - simpl. split; [reflexivity|].
    split; intros i v [-> _]%lookup_replicate; exact floor_le_one.
  - destruct IH as (Hfloor & Hprev & Hpp).
    destruct (adapt_step_size_state _ _ _ _ _ _ _ _ _ Hrun)
      as [[_ ->]|(error_estimate & _ & -> & ->)]; simpl.
    + split; [exact Hfloor|]. split; [|exact Hprev].
      intros i v [-> _]%lookup_replicate. exact floor_le_one.
    + split; [exact Hfloor|]. split.
      * intros i v. rewrite lookup_where_, list_lookup_fmap.
        unfold Spec.error_ratio. rewrite list_lookup_fmap, Hfloor.
        destruct (PIDController.norm self _ !! i) as [n|]; simpl; [|discriminate].
        destruct (PIDState.prev_error_ratio state !! i) as [p|] eqn:Hp; [|discriminate].
        destruct (ltb (maximum_s n floor) one) eqn:Hacc; intros [= <-].
        -- apply accepted_above_floor, Hacc.
        -- eapply Hprev, Hp.
      * intros i v. rewrite lookup_where_, list_lookup_fmap.
        destruct (Spec.error_ratio self state y0 _ error_estimate !! i) as [e|];
          simpl; [|discriminate].
        destruct (PIDState.prev_error_ratio state !! i) as [p|] eqn:Hp; [|discriminate].
        destruct (PIDState.prev_prev_error_ratio state !! i) as [q|] eqn:Hq; [|discriminate].
        destruct (ltb e one); intros [= <-]; [eapply Hprev, Hp|eapply Hpp, Hq].
  - destruct IHc as (Hfloor & Hprev & Hpp). destruct IHp as (_ & Hprev' & Hpp').
    simpl. split; [exact Hfloor|]. split.
    + intros i v. rewrite lookup_where_.
      destruct (running !! i) as [r|]; [|discriminate].
      destruct (PIDState.prev_error_ratio current !! i) as [c|] eqn:Hc; [|discriminate].
      destruct (PIDState.prev_error_ratio previous !! i) as [p|] eqn:Hp; [|discriminate].
      destruct r; intros [= <-]; [eapply Hprev, Hc|eapply Hprev', Hp].
    + intros i v. rewrite lookup_where_.
      destruct (running !! i) as [r|]; [|discriminate].
      destruct (PIDState.prev_prev_error_ratio current !! i) as [c|] eqn:Hc; [|discriminate].
      destruct (PIDState.prev_prev_error_ratio previous !! i) as [p|] eqn:Hp; [|discriminate].
      destruct r; intros [= <-]; [eapply Hpp, Hc|eapply Hpp', Hp].
Qed.

(** C8 (amended): the error ratio is max(norm(error / error_bounds),
    almost_zero): at least almost_zero when the norm is not NaN, and NaN
    when it is.  With a floor in (0, 1], every state a solve reaches (the
    initial state, after any step attempt with or without an error
    estimate, after [merge_states]) keeps that floor and has both history
    ratios at least almost_zero; the three bases [dt_factor] raises to a
    power are never zero. *)
Theorem error_ratios_above_floor (method_order : Z) (problem : InitialValueProblem.t)
    (dt_min dt_max : option float) (state : PIDState.t) :
  Spec.reachable pow floor self method_order problem dt_min dt_max state ->
  PIDState.almost_zero state = floor /\
  (forall (i : nat) (v : float),
      PIDState.prev_error_ratio state !! i = Some v ->
      leb (PIDState.almost_zero state) v = true /\ eqb v zero = false) /\
  (forall (i : nat) (v : float),
      PIDState.prev_prev_error_ratio state !! i = Some v ->
      leb (PIDState.almost_zero state) v = true /\ eqb v zero = false) /\
  (forall (y0 y1 error_estimate : list (list float)) (i : nat) (e : float),
      Spec.error_ratio self state y0 y1 error_estimate !! i = Some e ->
      exists n,
        PIDController.norm self (Spec.scaled_error self y0 y1 error_estimate) !! i = Some n /\
        e = maximum_s n (PIDState.almost_zero state) /\
        (is_nan n = false -> leb (PIDState.almost_zero state) e = true) /\
        (is_nan n = true -> e = nan) /\
        eqb e zero = false).
Proof.
  intros Hreach.
  destruct (reachable_invariant _ _ _ _ _ Hreach) as (Hfloor & Hprev & Hpp).
  rewrite Hfloor. split; [reflexivity|]. split; [|split].
  - intros i v Hv. split; [|apply above_floor_nonzero]; eapply Hprev, Hv.
  - intros i v Hv. split; [|apply above_floor_nonzero]; eapply Hpp, Hv.
  - intros y0 y1 error_estimate i e. unfold Spec.error_ratio.
    rewrite list_lookup_fmap, Hfloor.
    destruct (PIDController.norm self _ !! i) as [n|]; simpl; [|discriminate].
    intros [= <-]. exists n. split; [reflexivity|]. split; [reflexivity|].
    split; [|split].
    + intros Hn. apply maximum_s_ge; [exact Hn|exact floor_not_nan].
    + intros Hn. apply maximum_s_nan. left. exact Hn.
    + destruct (maximum_s_cases n floor) as [->|E]; [reflexivity|].
      apply above_floor_nonzero, E.
Qed.

End Floor.

(** ** The initial-step heuristic *)

Section InitialStep.

Import F64 torch F64_facts torch_facts.

Variable pow : float -> float -> float.
Variable is_scripting : bool.
Variable self : PIDController.t.

(** The heuristic in terms of its trial step and of d2. *)
Lemma select_initial_step_unfold (term : option ODETerm.t) (tm : ODETerm.t)
    (t0 : list float) (y0 : list (list float)) (direction dt_max : list float)
    (convergence_order : Z) (exponent : float) :
  PIDController.resolve_term is_scripting self term = Ok tm ->
  py_truediv one convergence_order = Ok exponent ->
  let f0 := ODETerm.vf tm t0 y0 in
  let dt0 := Spec.trial_step self f0 y0 dt_max in
  let maxd1d2 :=
    maximum (Spec.d1_of self f0 y0) (Spec.d2_of self tm t0 y0 direction dt_max) in
  PIDController._select_initial_step pow is_scripting self term t0 y0 direction dt_max
    convergence_order =
  Ok (zip_with mul direction
        (minimum ((fun v => mul (of_Z 100) v) <$> dt0)
           (where_ ((fun v => leb v (lit 1 15)) <$> maxd1d2)
                   ((fun v => maximum_s (lit 1 6) (mul v (lit 1 3))) <$> dt0)
                   ((fun v => pow (div (lit 1 2) v) exponent) <$> maxd1d2))),
      f0).
Proof.
  intros Hterm Hexp. unfold PIDController._select_initial_step.
  rewrite Hterm. simpl. rewrite Hexp. reflexivity.
Qed.

Lemma select_initial_step_inv (term : option ODETerm.t) (t0 : list float)
    (y0 : list (list float)) (direction dt_max : list float) (convergence_order : Z)
    (steps : list float) (f0 : list (list float)) :
  PIDController._select_initial_step pow is_scripting self term t0 y0 direction dt_max
    convergence_order = Ok (steps, f0) ->
  exists tm exponent,
    PIDController.resolve_term is_scripting self term = Ok tm /\
    py_truediv one convergence_order = Ok exponent.
Proof.
  unfold PIDController._select_initial_step.
  destruct (PIDController.resolve_term is_scripting self term) as [tm|]; simpl; [|discriminate].
  destruct (py_truediv one convergence_order) as [exponent|]; simpl; [|discriminate].
  intros _. eauto.
Qed.

Lemma lookup_first_guess (d0 d1 : list float) (i : nat) :
  where_st (zip_with orb ((fun v => ltb v (lit 1 5)) <$> d0)
                         ((fun v => ltb v (lit 1 5)) <$> d1))
           (lit 1 6)
           (zip_with div ((fun v => mul (lit 1 2) v) <$> d0) d1) !! i =
  match (d0 !! i : option float), (d1 !! i : option float) with
  | Some a, Some b => Some (Spec.first_guess a b)
  | _, _ => None
  end.
Proof.
  rewrite lookup_where_st, !lookup_zip_with, !list_lookup_fmap.
  destruct (d0 !! i) as [a|], (d1 !! i) as [b|]; reflexivity.
Qed.

Lemma lookup_trial_step (f0 y0 : list (list float)) (dt_max : list float) (i : nat) :
  Spec.trial_step self f0 y0 dt_max !! i =
  match (Spec.d0_of self y0 !! i : option float),
        (Spec.d1_of self f0 y0 !! i : option float), (dt_max !! i : option float) with
  | Some a, Some b, Some m => Some (minimum_s (Spec.first_guess a b) m)
  | _, _, _ => None
  end.
Proof.
  unfold Spec.trial_step, minimum. rewrite lookup_zip_with, lookup_first_guess.
  destruct (Spec.d0_of self y0 !! i), (Spec.d1_of self f0 y0 !! i), (dt_max !! i);
    reflexivity.
Qed.



Lemma first_guess_not_negative (a b : float) : not_negative (Spec.first_guess a b) = true.
Proof.
  unfold Spec.first_guess.
  destruct (ltb a (lit 1 5)) eqn:Ha; [reflexivity|].
  destruct (ltb b (lit 1 5)) eqn:Hb; [reflexivity|]. cbn [orb].
  apply not_negative_div; [apply not_negative_mul; [reflexivity|]|].
  - eapply not_ltb_not_negative; [|exact Ha]. reflexivity.
  - eapply not_ltb_not_negative; [|exact Hb]. reflexivity.
Qed.




Lemma second_guess_not_negative (exponent dt0 maxd1d2 : float) :
  Spec.sign_preserving pow -> not_negative dt0 = true ->
  not_negative (Spec.second_guess pow exponent dt0 maxd1d2) = true.
Proof.
  intros Hpow Hdt0. unfold Spec.second_guess.
  destruct (leb maxd1d2 (lit 1 15)) eqn:Hc.
  - apply not_negative_maximum_s; [reflexivity|].
    apply not_negative_mul; [exact Hdt0|reflexivity].
  - assert (Hbase : not_negative (div (lit 1 2) maxd1d2) = true).
    { apply not_negative_div; [reflexivity|].
      eapply not_leb_not_negative; [|exact Hc]. reflexivity. }
    unfold not_negative in *.
    destruct (signbit (pow (div (lit 1 2) maxd1d2) exponent)) as [[]|] eqn:E;
      try reflexivity.
    apply Hpow in E. rewrite E in Hbase. discriminate.
Qed.


End InitialStep.

(** ** Closed instances *)

Section Instances.

Import F64 torch F64_facts torch_facts Examples.

Lemma pow_exact_sign_preserving : Spec.sign_preserving pow_exact.
Proof.
  intros x e. unfold pow_exact.
  destruct (eqb e zero); [discriminate|].
  destruct (eqb e one); [auto|].
  destruct (eqb e (of_Z 2)).
  { intros H. destruct (signbit x) as [sx|] eqn:Hx.
    - destruct (mul_sign x x sx sx Hx Hx) as [E|E]; rewrite E in H.
      + discriminate.
      + destruct sx; discriminate.
    - apply signbit_none in Hx. subst. discriminate. }
  destruct (eqb e (of_Z (-1))); [|discriminate].
  intros H. destruct (signbit x) as [sx|] eqn:Hx.
  - destruct (div_sign one x false sx eq_refl Hx) as [E|E]; rewrite E in H.
    + discriminate.
    + simpl in H. exact H.
  - apply signbit_none in Hx. subst. discriminate.
Qed.

(** C1, an instance: the proportional controller of order 1 at error ratio
    0.5 with neutral history returns 0.9 * 0.5^-1 = 1.8, within
    [0.2, 10]. *)
Lemma dt_factor_clamped_law_witness :
  Spec.order_ok 1 = true /\
  exists factor,
    PIDController.dt_factor pow_exact ctrl (state1 1 one one) [lit 5 1] = Ok factor /\
    factor !! 0%nat = Some (lit 18 1) /\
    leb (lit 2 1) (lit 18 1) = true /\ leb (lit 18 1) (of_Z 10) = true.
Proof.
  split; [reflexivity|].
  destruct (dt_factor_clamped_law pow_exact ctrl (state1 1 one one) [lit 5 1] 0%nat
              (lit 5 1) one one eq_refl eq_refl eq_refl eq_refl)
    as (factor & Hrun & Hi & Hin & _).
  exists factor. split; [exact Hrun|]. split; [rewrite Hi; vm_compute; reflexivity|].
  apply Hin; vm_compute; reflexivity.
Defined.

(** C1, where the claim fails: with positive ratios 2^-1050 (current),
    2^-600 (previous) and 1 (before), the derivative controller of order 1
    computes 0.9 * inf * 0 * 1 = NaN, and the clamp to [0.2, 10] returns
    NaN, which lies in no interval.  With the bounds the wrong way round
    (factor_min = 10, factor_max = 0.2) the clamp returns factor_max, below
    factor_min. *)
Lemma dt_factor_outside_bounds :
  (ltb zero (pow2 (-1050)) = true /\ ltb zero (pow2 (-600)) = true /\ ltb zero one = true /\
   leb (PIDController.factor_min d_controller) (PIDController.factor_max d_controller) = true /\
   PIDController.dt_factor pow_exact d_controller (state1 1 (pow2 (-600)) one)
     [pow2 (-1050)] = Ok [nan] /\
   leb (PIDController.factor_min d_controller) nan = false /\
   leb nan (PIDController.factor_max d_controller) = false) /\
  (ltb zero (lit 5 1) = true /\
   PIDController.dt_factor pow_exact inverted_controller (state1 1 one one) [lit 5 1]
     = Ok [lit 2 1] /\
   leb (PIDController.factor_min inverted_controller) (lit 2 1) = false).
Proof. vm_compute. repeat split. Qed.

(** C2, an instance: of two batch elements with history (0.5, 1.0), the
    first is accepted with error ratio e and gets history (e, 0.5), the
    second is rejected and keeps (0.5, 1.0); a step that is rejected for both
    returns the state as it came.  For y = 11 the bound
    1e-6 + 1e-3 * 11, rounded once, is one unit in the last place above the
    sum of the rounded product; an error estimate equal to the latter has
    the ratio 1 - 2^-53, is accepted, and that ratio enters the history. *)
Lemma adapt_step_size_history_witness :
  Spec.order_ok 1 = true /\
  (exists e accept dt_next new_state status,
     PIDController.adapt_step_size pow_exact ctrl [zero; zero] [lit 1 1; lit 1 1]
       [[one]; [one]] (StepResult.mk [[one]; [one]] (Some [[lit 1 4]; [one]])) state2
       = Ok (accept, dt_next, new_state, status) /\
     accept = [true; false] /\
     PIDState.prev_error_ratio new_state !! 0%nat = Some e /\
     PIDState.prev_prev_error_ratio new_state !! 0%nat = Some (lit 5 1) /\
     PIDState.prev_error_ratio new_state !! 1%nat = Some (lit 5 1) /\
     PIDState.prev_prev_error_ratio new_state !! 1%nat = Some one) /\
  (exists dt_next status,
     PIDController.adapt_step_size pow_exact ctrl [zero; zero] [lit 1 1; lit 1 1]
       [[one]; [one]] (StepResult.mk [[one]; [one]] (Some [[one]; [one]])) state2
       = Ok ([false; false], dt_next, state2, status)) /\
  (exists dt_next status,
     PIDController.adapt_step_size pow_exact ctrl [zero] [lit 1 1] [[of_Z 11]]
       (StepResult.mk [[of_Z 11]] (Some [[add (lit 1 6) (mul (lit 1 3) (of_Z 11))]]))
       (state1 1 one one)
       = Ok ([true], dt_next, state1 1 (S754_finite false 9007199254740991 (-53)) one,
             status)).
Proof.
  split; [reflexivity|]. split; [|split].
  - destruct (adapt_step_size_history pow_exact ctrl [zero; zero] [lit 1 1; lit 1 1]
                [[one]; [one]] [[one]; [one]] [[lit 1 4]; [one]] state2 eq_refl)
      as (accept & dt_next & new_state & status & Hrun & Hacc & Hper & _).
    vm_compute in Hacc.
    exists (S754_finite false 7198560842949845 (-56)), accept, dt_next, new_state, status.
    split; [exact Hrun|]. split; [exact Hacc|]. subst accept.
    destruct (Hper 0%nat true (S754_finite false 7198560842949845 (-56)) (lit 5 1) one)
      as [H0 H0']; try (vm_compute; reflexivity).
    destruct (Hper 1%nat false (S754_finite false 8787305716491509 (-43)) (lit 5 1) one)
      as [H1 H1']; try (vm_compute; reflexivity).
    repeat split; assumption.
  - destruct (adapt_step_size_history pow_exact ctrl [zero; zero] [lit 1 1; lit 1 1]
                [[one]; [one]] [[one]; [one]] [[one]; [one]] state2 eq_refl)
      as (accept & dt_next & new_state & status & Hrun & Hacc & _ & _ & _ & _ & _ & Hrej).
    assert (Hacc' : accept = [false; false]).
    { rewrite Hacc. vm_compute. reflexivity. }
    clear Hacc. subst accept.
    destruct Hrej as [Hsame _].
    { vm_compute. reflexivity. }
    { vm_compute. reflexivity. }
    { intros i a H. destruct i as [|[|i]]; [cbn in H; congruence..|].
      apply lookup_lt_Some in H. simpl in H. lia. }
    exists dt_next, status. rewrite Hsame in Hrun. exact Hrun.
  - destruct (adapt_step_size_history pow_exact ctrl [zero] [lit 1 1] [[of_Z 11]]
                [[of_Z 11]] [[add (lit 1 6) (mul (lit 1 3) (of_Z 11))]] (state1 1 one one)
                eq_refl)
      as (accept & dt_next & new_state & status & Hrun & Hacc & Hper & _).
    vm_compute in Hacc. subst accept.
    exists dt_next, status. rewrite Hrun.
    pose proof Hrun as Hval. vm_compute in Hval. injection Hval as _ Hs _.
    rewrite <- Hs. vm_compute. reflexivity.
Defined.


(** C5, an instance: with plus infinity in the error estimate of the first
    of two batch elements, the status is (INFINITE_NORM, SUCCESS). *)
Lemma adapt_step_size_status_witness :
  Spec.order_ok 1 = true /\
  exists accept dt_next new_state status,
    PIDController.adapt_step_size pow_exact ctrl [zero; zero] [lit 1 1; lit 1 1]
      [[one]; [one]] (StepResult.mk [[one]; [one]] (Some [[infinity]; [lit 1 4]])) state2
      = Ok (accept, dt_next, new_state, Some status) /\
    status !! 0%nat = Some INFINITE_NORM /\ status !! 1%nat = Some SUCCESS.
Proof.
  split; [reflexivity|].
  destruct (adapt_step_size_status pow_exact ctrl [zero; zero] [lit 1 1; lit 1 1]
              [[one]; [one]] [[one]; [one]] [[infinity]; [lit 1 4]] state2 eq_refl)
    as (accept & dt_next & new_state & status & Hrun & _ & Hper & Hinj).
  exists accept, dt_next, new_state, status. split; [exact Hrun|]. split.
  - destruct (Hinj rms_norm_row rms_norm_rowwise rms_norm_propagates) as [H _].
    apply (H 0%nat 0%nat [infinity] [one] [one] one one); reflexivity.
  - destruct (Hper 1%nat (S754_finite false 7198560842949845 (-56))) as (_ & H & _);
      [vm_compute; reflexivity|].
    apply H. reflexivity.
Defined.

(** C6, an instance: under the mask (true, false) the first element keeps
    current's history (1.0, 1.0), the second takes previous's (0.5, 0.5);
    under an all-true mask the result is current, and under an all-false
    mask, the two states agreeing on the other fields, it is previous. *)
Lemma merge_states_select_witness :
  PIDState.prev_error_ratio
    (PIDController.merge_states [true; false]
       (PIDState.mk 4 [one; one] [one; one] (lit 1 6) None None)
       (PIDState.mk 4 [lit 5 1; lit 5 1] [lit 5 1; lit 5 1] (lit 1 6) None None))
    !! 1%nat = Some (lit 5 1) /\
  PIDController.merge_states [true; true]
    (PIDState.mk 4 [one; one] [one; one] (lit 1 6) None None)
    (PIDState.mk 4 [lit 5 1; lit 5 1] [lit 5 1; lit 5 1] (lit 1 6) None None)
  = PIDState.mk 4 [one; one] [one; one] (lit 1 6) None None /\
  PIDController.merge_states [false; false]
    (PIDState.mk 4 [one; one] [one; one] (lit 1 6) None None)
    (PIDState.mk 4 [lit 5 1; lit 5 1] [lit 5 1; lit 5 1] (lit 1 6) None None)
  = PIDState.mk 4 [lit 5 1; lit 5 1] [lit 5 1; lit 5 1] (lit 1 6) None None.
Proof.
  split; [|split].
  - apply (proj1 (merge_states_select [true; false]
             (PIDState.mk 4 [one; one] [one; one] (lit 1 6) None None)
             (PIDState.mk 4 [lit 5 1; lit 5 1] [lit 5 1; lit 5 1] (lit 1 6) None None))
             1%nat false one (lit 5 1) one (lit 5 1)); reflexivity.
  - destruct (proj1 (proj2 (merge_states_select [true; true]
                (PIDState.mk 4 [one; one] [one; one] (lit 1 6) None None)
                (PIDState.mk 4 [lit 5 1; lit 5 1] [lit 5 1; lit 5 1] (lit 1 6) None None)))
                eq_refl eq_refl eq_refl eq_refl) as [Htrue _].
    apply Htrue.
    intros i r H. destruct i as [|[|i]]; [cbn in H; congruence..|].
    apply lookup_lt_Some in H. simpl in H. lia.
  - destruct (proj1 (proj2 (merge_states_select [false; false]
                (PIDState.mk 4 [one; one] [one; one] (lit 1 6) None None)
                (PIDState.mk 4 [lit 5 1; lit 5 1] [lit 5 1; lit 5 1] (lit 1 6) None None)))
                eq_refl eq_refl eq_refl eq_refl) as [_ Hfalse].
    destruct Hfalse as (_ & _ & _ & _ & _ & _ & Hiff).
    { intros i r H. destruct i as [|[|i]]; [cbn in H; congruence..|].
      apply lookup_lt_Some in H. simpl in H. lia. }
    apply Hiff. repeat split; reflexivity.
Defined.

(** C6, where the claim fails: merging under an all-false mask a current
    state of order 4 with a previous state of order 5 returns previous's
    history with current's order, which is not the previous state. *)
Lemma merge_states_all_false_not_previous :
  PIDController.merge_states [false] (state1 4 one one) (state1 5 (lit 5 1) (lit 5 1))
    = state1 4 (lit 5 1) (lit 5 1) /\
  PIDController.merge_states [false] (state1 4 one one) (state1 5 (lit 5 1) (lit 5 1))
    <> state1 5 (lit 5 1) (lit 5 1).
Proof. split; [reflexivity|]. intros H. discriminate H. Qed.



(** C8, an instance: the state after one accepted step from the initial
    state. *)
Lemma error_ratios_above_floor_witness :
  ltb zero (lit 1 6) = true /\ leb (lit 1 6) one = true /\
  exists state,
    Spec.reachable pow_exact (lit 1 6) ctrl 1 short_problem None None state /\
    PIDState.prev_error_ratio state <> PIDState.prev_prev_error_ratio state /\
    PIDState.almost_zero state = lit 1 6 /\
    (forall (i : nat) (v : float),
        PIDState.prev_error_ratio state !! i = Some v ->
        leb (lit 1 6) v = true /\ eqb v zero = false).
Proof.
  split; [reflexivity|]. split; [reflexivity|].
  assert (Hreach :
    Spec.reachable pow_exact (lit 1 6) ctrl 1 short_problem None None
      (PIDState.mk 1 [S754_finite false 7198560842949845 (-56)] [one] (lit 1 6) None None)).
  { eapply (Spec.reach_step _ _ _ _ _ _ _ _ _ [zero] [lit 1 1] _ [[one]]
              (StepResult.mk [[one]] (Some [[lit 1 4]]))).
    - apply Spec.reach_initial.
    - vm_compute. reflexivity. }
  eexists. split; [exact Hreach|]. split; [discriminate|].
  destruct (error_ratios_above_floor pow_exact (lit 1 6) ctrl eq_refl eq_refl
              1 short_problem None None _ Hreach) as (Hfloor & Hprev & _).
  split; [exact Hfloor|]. intros i v Hv. rewrite <- Hfloor. apply (Hprev i v Hv).
Defined.

(** C8, where the claim fails: a NaN error estimate gives a NaN error
    ratio, which is not at least almost_zero; the step is rejected with
    status INFINITE_NORM and the state is kept. *)
Lemma error_ratio_nan_below_floor :
  Spec.error_ratio ctrl (state1 1 one one) [[one]] [[one]] [[nan]] = [nan] /\
  leb (PIDState.almost_zero (state1 1 one one)) nan = false /\
  PIDController.adapt_step_size pow_exact ctrl [zero] [lit 1 1] [[one]]
    (StepResult.mk [[one]] (Some [[nan]])) (state1 1 one one)
  = Ok ([false], [nan], state1 1 one one, Some [INFINITE_NORM]).
Proof. vm_compute. repeat split. Qed.



End Instances.

(** ** Exceptions of the initial-step heuristic *)

Section Exceptions.

Import F64 torch F64_facts torch_facts.

Variable pow : float -> float -> float.
Variable is_scripting : bool.
Variable self : PIDController.t.

(** Python's float / int raises or returns the quotient. *)
Lemma py_truediv_cases (x : float) (n : Z) :
  (is_finite (of_Z n) = false /\ py_truediv x n = Raise OverflowError) \/
  (n = 0 /\ py_truediv x n = Raise ZeroDivisionError) \/
  (Spec.order_ok n = true /\ py_truediv x n = Ok (div x (of_Z n))).
Proof.
  unfold py_truediv, Spec.order_ok.
  destruct (is_finite (of_Z n)) eqn:Hf; simpl; [|left; auto].
  destruct (n =? 0) eqn:Hz; simpl.
  - right. left. apply Z.eqb_eq in Hz. auto.
  - right. right. auto.
Qed.

Lemma order_ok_nonzero (n : Z) :
  Spec.order_ok n = true -> n <> 0 /\ is_finite (of_Z n) = true.
Proof.
  unfold Spec.order_ok. intros [Hn Hf]%andb_prop.
  apply negb_true_iff, Z.eqb_neq in Hn. auto.
Qed.

Lemma resolve_term_ok (term : option ODETerm.t) (tm : ODETerm.t) :
  PIDController.resolve_term is_scripting self term = Ok tm <->
  (is_scripting = false /\ term = Some tm) \/
  (term = None /\ PIDController.term self = Some tm).
Proof.
  unfold PIDController.resolve_term.
  destruct is_scripting, term as [t|], (PIDController.term self) as [s|]; simpl;
    split; intros H; try discriminate;
    try (injection H as <-; auto; fail);
    destruct H as [[H1 H2]|[H1 H2]]; try discriminate; congruence.
Qed.

Lemma resolve_term_raises (term : option ODETerm.t) (e : exn) :
  PIDController.resolve_term is_scripting self term = Raise e -> e = AssertionError.
Proof.
  unfold PIDController.resolve_term.
  destruct is_scripting, term as [t|], (PIDController.term self) as [s|]; simpl;
    intros H; try discriminate; congruence.
Qed.

(** X1: the initial-step heuristic evaluates the term of the call outside
    TorchScript only, and the controller's own term only when the call
    passes none.  Without a term to evaluate it raises AssertionError,
    whatever the order; with one it raises ZeroDivisionError for the order
    0 and OverflowError for an order too large for a float, and for every
    other order it returns a step together with the vector field at
    (t0, y0). *)
Theorem select_initial_step_errors (term : option ODETerm.t) (t0 : list float)
    (y0 : list (list float)) (direction dt_max : list float) (convergence_order : Z) :
  let run := PIDController._select_initial_step pow is_scripting self term t0 y0
               direction dt_max convergence_order in
  (forall tm : ODETerm.t,
      PIDController.resolve_term is_scripting self term = Ok tm <->
      (is_scripting = false /\ term = Some tm) \/
      (term = None /\ PIDController.term self = Some tm)) /\
  ((forall tm : ODETerm.t, PIDController.resolve_term is_scripting self term <> Ok tm) ->
   run = Raise AssertionError) /\
  (forall tm : ODETerm.t,
      PIDController.resolve_term is_scripting self term = Ok tm ->
      (convergence_order = 0 -> run = Raise ZeroDivisionError) /\
      (is_finite (of_Z convergence_order) = false -> run = Raise OverflowError) /\
      (Spec.order_ok convergence_order = true ->
       exists steps, run = Ok (steps, ODETerm.vf tm t0 y0))).
Proof.
  intros run. split; [intros tm; apply resolve_term_ok|]. split.
  - intros Hnone. subst run. unfold PIDController._select_initial_step.
    destruct (PIDController.resolve_term is_scripting self term) as [tm|e] eqn:E.
    + destruct (Hnone tm). reflexivity.
    + apply resolve_term_raises in E. subst e. reflexivity.
  - intros tm Hterm. subst run. unfold PIDController._select_initial_step.
    rewrite Hterm. cbn [bind].
    destruct (py_truediv_cases one convergence_order)
      as [[Hf E]|[[Hz E]|[Hok E]]].
    + split; [|split].
      * intros ->. discriminate Hf.
      * intros _. rewrite E. reflexivity.
      * intros [_ Hf']%order_ok_nonzero. congruence.
    + split; [|split].
      * intros _. rewrite E. reflexivity.
      * subst convergence_order. intros H. discriminate H.
      * intros [Hn _]%order_ok_nonzero. contradiction.
    + destruct (order_ok_nonzero _ Hok) as [Hn Hf]. split; [|split].
      * intros H. contradiction.
      * intros H. congruence.
      * intros _. rewrite E. cbn [bind]. eexists. reflexivity.
Qed.

End Exceptions.

(** ** The first step *)

Section FirstStep.

Import F64 torch F64_facts torch_facts.

Variable pow : float -> float -> float.
Variable is_scripting : bool.
Variable floor : float.
Variable self : PIDController.t.

Lemma not_negative_abs (x : float) : not_negative (abs x) = true.
Proof. destruct x; reflexivity. Qed.

(** One entry of the step the heuristic returns, under a cap that is not
    negative. *)
Lemma select_initial_step_entry (term : option ODETerm.t) (t0 : list float)
    (y0 : list (list float)) (direction dt_max : list float) (convergence_order : Z)
    (steps : list float) (f0 : list (list float)) (i : nat) (r dir : float) :
  Spec.sign_preserving pow ->
  (forall m : float, dt_max !! i = Some m -> not_negative m = true) ->
  PIDController._select_initial_step pow is_scripting self term t0 y0 direction dt_max
    convergence_order = Ok (steps, f0) ->
  steps !! i = Some r ->
  direction !! i = Some dir ->
  dir = one \/ dir = opp one ->
  r = nan \/ signbit r = signbit dir.
Proof.
  intros Hpow Hcap Hrun Hr Hdir Hunit.
  destruct (select_initial_step_inv _ _ _ _ _ _ _ _ _ _ _ Hrun)
    as (tm & exponent & Hterm & Hexp).
  rewrite (select_initial_step_unfold pow is_scripting self term tm t0 y0 direction dt_max
             convergence_order exponent Hterm Hexp) in Hrun.
  injection Hrun as <- <-.
  apply lookup_zip_with_Some in Hr as (dir' & mm & -> & Hdir' & Hmm).
  rewrite Hdir in Hdir'. injection Hdir' as <-.
  unfold minimum in Hmm.
  apply lookup_zip_with_Some in Hmm as (x & dt1 & -> & Hx & Hdt1).
  apply list_lookup_fmap_Some in Hx as (dt0 & -> & Hdt0).
  rewrite lookup_where_, !list_lookup_fmap, Hdt0 in Hdt1.
  destruct (maximum _ _ !! i) as [mx|]; [|discriminate Hdt1].
  assert (Hd : Some (Spec.second_guess pow exponent dt0 mx) = Some dt1) by exact Hdt1.
  injection Hd as <-. clear Hdt1.
  assert (Hnn : not_negative dt0 = true).
  { rewrite lookup_trial_step in Hdt0.
    destruct (Spec.d0_of self y0 !! i) as [a|]; [|discriminate].
    destruct (Spec.d1_of self _ y0 !! i) as [b|]; [|discriminate].
    destruct (dt_max !! i) as [m|]; [|discriminate].
    injection Hdt0 as <-.
    apply not_negative_minimum_s; [apply first_guess_not_negative|].
    apply Hcap. reflexivity. }
  assert (Hmin : not_negative (minimum_s (mul (of_Z 100) dt0)
                                 (Spec.second_guess pow exponent dt0 mx)) = true).
  { apply not_negative_minimum_s.
    - apply not_negative_mul; [reflexivity|exact Hnn].
    - apply second_guess_not_negative; assumption. }
  exact (mul_unit_sign dir _ Hunit Hmin).
Qed.

(** X2: [init] with a first step dt0 returns it as it is, with no vector
    field, never looks at the term or the order and never raises.  Without
    one it runs the heuristic from the start of the problem with the cap
    |t_end - t_start| and passes its exception on; when it returns, the
    third component is the vector field at the start, and, the cap never
    being negative, each step is NaN or carries the sign of its direction of
    +1 or -1.  The state is in both cases the initial state of the order
    with the bounds of the controller, with a history of [batch_size]
    elements. *)
Theorem init_first_step (term : option ODETerm.t) (problem : InitialValueProblem.t)
    (method_order : Z) :
  let state0 :=
    PIDController.initial_state floor method_order problem
      (PIDController.dt_min self) (PIDController.dt_max self) in
  let t_start := InitialValueProblem.t_start problem in
  let y0 := InitialValueProblem.y0 problem in
  let direction := InitialValueProblem.time_direction problem in
  let span := abs <$> zip_with sub (InitialValueProblem.t_end problem) t_start in
  let heuristic :=
    PIDController._select_initial_step pow is_scripting self term t_start y0 direction
      span method_order in
  (forall dt0 : list float,
      PIDController.init pow is_scripting floor self term problem method_order (Some dt0)
      = Ok (dt0, state0, None)) /\
  (forall e : exn,
      heuristic = Raise e ->
      PIDController.init pow is_scripting floor self term problem method_order None
      = Raise e) /\
  (forall (steps : list float) (state : PIDState.t) (f0 : option (list (list float))),
      PIDController.init pow is_scripting floor self term problem method_order None
      = Ok (steps, state, f0) ->
      state = state0 /\
      length (PIDState.prev_error_ratio state) = InitialValueProblem.batch_size problem /\
      (exists tm : ODETerm.t,
          PIDController.resolve_term is_scripting self term = Ok tm /\
          f0 = Some (ODETerm.vf tm t_start y0) /\
          heuristic = Ok (steps, ODETerm.vf tm t_start y0)) /\
      (Spec.sign_preserving pow ->
       forall (i : nat) (r dir : float),
         steps !! i = Some r -> direction !! i = Some dir ->
         dir = one \/ dir = opp one ->
         r = nan \/ signbit r = signbit dir)).
Proof.
  intros state0 t_start y0 direction span heuristic.
  split; [reflexivity|]. split.
  - intros e He. unfold PIDController.init. fold t_start y0 direction span heuristic.
    rewrite He. reflexivity.
  - intros steps state f0. unfold PIDController.init.
    fold t_start y0 direction span heuristic.
    destruct heuristic as [[s f]|e] eqn:Hrun; cbn [bind fst snd]; [|discriminate].
    intros [= <- <- <-]. split; [reflexivity|].
    split; [apply length_replicate|]. split.
    + destruct (select_initial_step_inv _ _ _ _ _ _ _ _ _ _ _ Hrun)
        as (tm & exponent & Hterm & Hexp).
      exists tm. split; [exact Hterm|].
      pose proof (select_initial_step_unfold pow is_scripting self term tm t_start y0
                    direction span method_order exponent Hterm Hexp) as Hu.
      fold heuristic in Hu. rewrite Hrun in Hu. injection Hu as _ ->.
      split; reflexivity.
    + intros Hpow i r dir Hr Hdir Hunit.
      eapply select_initial_step_entry; try eassumption.
      intros m Hm. subst span. apply list_lookup_fmap_Some in Hm as (d & -> & _).
      apply not_negative_abs.
Qed.

End FirstStep.

(** ** Exceptions and results of a step attempt *)

Section Attempt.

Import F64 torch F64_facts torch_facts.

Variable pow : float -> float -> float.
Variable self : PIDController.t.

Lemma dt_factor_cases (state : PIDState.t) (error_ratio : list float) :
  let order := PIDState.method_order state in
  (is_finite (of_Z order) = false /\
   PIDController.dt_factor pow self state error_ratio = Raise OverflowError) \/
  (order = 0 /\
   PIDController.dt_factor pow self state error_ratio = Raise ZeroDivisionError) \/
  (Spec.order_ok order = true /\
   exists factor, PIDController.dt_factor pow self state error_ratio = Ok factor).
Proof.
  intros order. unfold PIDController.dt_factor. fold order.
  destruct (py_truediv_cases (PIDController.icoeff self) order)
    as [[Hf E]|[[Hz E]|[Hok E]]].
  - left. rewrite E. auto.
  - right. left. rewrite E. auto.
  - right. right. split; [exact Hok|].
    rewrite !(py_truediv_ok _ _ Hok). cbn [bind]. eexists. reflexivity.
Qed.

(** What a step attempt that returns has computed. *)
Lemma adapt_step_size_inv (t0 dt : list float) (y0 : list (list float))
    (step_result : StepResult.t) (state new_state : PIDState.t)
    (accept : list bool) (dt_next : list float) (status : option (list Status)) :
  PIDController.adapt_step_size pow self t0 dt y0 step_result state
    = Ok (accept, dt_next, new_state, status) ->
  (StepResult.error_estimate step_result = None /\
   accept = (fun _ => true) <$> dt /\ dt_next = dt /\ status = None) \/
  (exists error_estimate factor,
      StepResult.error_estimate step_result = Some error_estimate /\
      let error_ratio :=
        Spec.error_ratio self state y0 (StepResult.y step_result) error_estimate in
      PIDController.dt_factor pow self state error_ratio = Ok factor /\
      accept = (fun v => ltb v one) <$> error_ratio /\
      dt_next =
        (if is_Some_b (PIDState.dt_min state) || is_Some_b (PIDState.dt_max state)
         then (fun v => clamp_opt_s v (PIDState.dt_min state) (PIDState.dt_max state))
                <$> zip_with mul dt factor
         else zip_with mul dt factor) /\
      status = Some (where_ss (is_finite <$> error_ratio) SUCCESS INFINITE_NORM)).
Proof.
  unfold PIDController.adapt_step_size.
  destruct step_result as [y1 [error_estimate|]]; cbn [StepResult.error_estimate StepResult.y].
  - fold (Spec.scaled_error self y0 y1 error_estimate).
    fold (Spec.error_ratio self state y0 y1 error_estimate).
    destruct (PIDController.dt_factor pow self state _) as [factor|] eqn:E;
      cbn [bind PIDController.update_state]; [|discriminate].
    intros [= <- <- _ <-]. right. exists error_estimate, factor.
    split; [reflexivity|]. cbv zeta. rewrite E. auto.
  - cbn [bind PIDController.update_state]. intros [= <- <- _ <-]. left. auto.
Qed.

(** One entry of the step size a step attempt with an error estimate
    proposes. *)
Lemma lookup_dt_next (t0 dt : list float) (y0 : list (list float))
    (step_result : StepResult.t) (state new_state : PIDState.t)
    (accept : list bool) (dt_next : list float) (status : list Status)
    (i : nat) (v : float) :
  PIDController.adapt_step_size pow self t0 dt y0 step_result state
    = Ok (accept, dt_next, new_state, Some status) ->
  dt_next !! i = Some v ->
  exists (error_estimate : list (list float)) (factor : list float) (d f : float),
    StepResult.error_estimate step_result = Some error_estimate /\
    PIDController.dt_factor pow self state
      (Spec.error_ratio self state y0 (StepResult.y step_result) error_estimate)
      = Ok factor /\
    dt !! i = Some d /\ factor !! i = Some f /\
    v = clamp_opt_s (mul d f) (PIDState.dt_min state) (PIDState.dt_max state).
Proof.
  intros Hrun Hv.
  destruct (adapt_step_size_inv _ _ _ _ _ _ _ _ _ Hrun)
    as [(_ & _ & _ & Hs)|(ee & factor & Hsome & Hfac & _ & Hnext & _)];
    [discriminate Hs|].
  exists ee, factor. subst dt_next.
  destruct (PIDState.dt_min state) as [l|], (PIDState.dt_max state) as [h|];
    cbn [is_Some_b orb] in Hv.
  1-3: apply list_lookup_fmap_Some in Hv as (p & -> & Hp);
    apply lookup_zip_with_Some in Hp as (d & f & -> & Hd & Hf);
    exists d, f; auto.
  apply lookup_zip_with_Some in Hv as (d & f & -> & Hd & Hf). exists d, f. auto.
Qed.

(** X3: a step attempt raises only when it has an error estimate and the
    order of the state cannot divide the gains: ZeroDivisionError exactly
    for the order 0, OverflowError exactly for an order too large for a
    float.  It never raises AssertionError: the assertion of [update_state]
    cannot fail from [adapt_step_size].  When it returns, the status is
    None exactly when there was no error estimate, and the acceptance mask
    has one entry per error ratio. *)
Theorem adapt_step_size_errors (t0 dt : list float) (y0 : list (list float))
    (step_result : StepResult.t) (state : PIDState.t) :
  let run := PIDController.adapt_step_size pow self t0 dt y0 step_result state in
  let order := PIDState.method_order state in
  run <> Raise AssertionError /\
  (run = Raise ZeroDivisionError <->
   StepResult.error_estimate step_result <> None /\ order = 0) /\
  (run = Raise OverflowError <->
   StepResult.error_estimate step_result <> None /\ is_finite (of_Z order) = false) /\
  ((exists r, run = Ok r) <->
   StepResult.error_estimate step_result = None \/ Spec.order_ok order = true) /\
  (forall (accept : list bool) (dt_next : list float) (new_state : PIDState.t)
          (status : option (list Status)),
      run = Ok (accept, dt_next, new_state, status) ->
      (status = None <-> StepResult.error_estimate step_result = None) /\
      (forall error_estimate : list (list float),
          StepResult.error_estimate step_result = Some error_estimate ->
          length accept =
          length (Spec.error_ratio self state y0 (StepResult.y step_result)
                    error_estimate))).
Proof.
  intros run order.
  assert (Hlast : forall (accept : list bool) (dt_next : list float)
            (new_state : PIDState.t) (status : option (list Status)),
      run = Ok (accept, dt_next, new_state, status) ->
      (status = None <-> StepResult.error_estimate step_result = None) /\
      (forall error_estimate : list (list float),
          StepResult.error_estimate step_result = Some error_estimate ->
          length accept =
          length (Spec.error_ratio self state y0 (StepResult.y step_result)
                    error_estimate))).
  { intros accept dt_next new_state status Hrun.
    destruct (adapt_step_size_inv _ _ _ _ _ _ _ _ _ Hrun)
      as [(Hnone & _ & _ & ->)|(ee & factor & Hsome & _ & -> & _ & ->)].
    - split; [tauto|]. intros ee Hsome. congruence.
    - split; [split; intros H; congruence|].
      intros ee' Hsome'. rewrite Hsome in Hsome'. injection Hsome' as <-.
      apply length_fmap. }
  subst run. unfold PIDController.adapt_step_size in *.
  destruct step_result as [y1 [error_estimate|]];
    cbn [StepResult.error_estimate StepResult.y] in *.
  - fold (Spec.scaled_error self y0 y1 error_estimate) in *.
    fold (Spec.error_ratio self state y0 y1 error_estimate) in *.
    destruct (dt_factor_cases state (Spec.error_ratio self state y0 y1 error_estimate))
      as [[Hf E]|[[Hz E]|[Hok [factor E]]]];
      fold order in Hf || fold order in Hz || fold order in Hok.
    + rewrite E in *. cbn [bind] in *.
      split; [discriminate|]. split; [|split; [|split; [|exact Hlast]]].
      * split; [discriminate|]. intros [_ Hz]. rewrite Hz in Hf. discriminate Hf.
      * split; [intros _; split; [discriminate|exact Hf]|reflexivity].
      * split; [intros [r Hr]; discriminate Hr|].
        intros [H|[_ Hf']%order_ok_nonzero]; congruence.
    + rewrite E in *. cbn [bind] in *.
      split; [discriminate|]. split; [|split; [|split; [|exact Hlast]]].
      * split; [intros _; split; [discriminate|exact Hz]|reflexivity].
      * split; [discriminate|]. intros [_ Hf]. rewrite Hz in Hf. discriminate Hf.
      * split; [intros [r Hr]; discriminate Hr|].
        intros [H|[Hn _]%order_ok_nonzero]; [discriminate|contradiction].
    + rewrite E in *. cbn [bind PIDController.update_state] in *.
      destruct (order_ok_nonzero _ Hok) as [Hn Hf].
      split; [discriminate|]. split; [|split; [|split; [|exact Hlast]]].
      * split; [discriminate|]. intros [_ Hz]. contradiction.
      * split; [discriminate|]. intros [_ Hf']. congruence.
      * split; [auto|]. intros _. eexists. reflexivity.
  - cbn [bind PIDController.update_state] in *.
    split; [discriminate|]. split; [|split; [|split; [|exact Hlast]]].
    + split; [discriminate|]. intros [H _]. contradiction.
    + split; [discriminate|]. intros [H _]. contradiction.
    + split; [auto|]. intros _. eexists. reflexivity.
Qed.

End Attempt.

(** ** The step-size bounds and the status *)

Section Bounds.

Import F64 torch F64_facts torch_facts.

Variable pow : float -> float -> float.
Variable self : PIDController.t.

(** The clamp by optional bounds: at most the upper bound, at least the
    lower bound when the bounds are in order, and the upper bound when they
    are not; NaN stays NaN. *)
Lemma clamp_opt_s_bounds (x : float) (lo hi : option float) :
  let v := clamp_opt_s x lo hi in
  (forall h : float, hi = Some h -> v = nan \/ leb v h = true) /\
  (forall l : float, lo = Some l ->
     hi = None \/ (exists h : float, hi = Some h /\ leb l h = true) ->
     v = nan \/ leb l v = true) /\
  (forall l h : float, lo = Some l -> hi = Some h -> ltb h l = true ->
     is_nan x = false -> v = h) /\
  (is_nan x = true -> v = nan).
Proof.
  intros v. subst v. split; [|split; [|split]].
  - intros h ->. unfold clamp_opt_s. apply minimum_s_le.
  - intros l -> [->|(h & -> & Hlh)]; unfold clamp_opt_s.
    + apply maximum_s_cases.
    + destruct (maximum_s_cases x l) as [->|Hl]; [left; reflexivity|].
      right. destruct (leb_not_nan _ _ Hl) as [_ Hx1].
      destruct (leb_not_nan _ _ Hlh) as [_ Hh].
      unfold minimum_s. rewrite Hx1, Hh. cbn [orb].
      apply std_min_ge; assumption.
  - intros l h -> -> Hhl Hx. unfold clamp_opt_s.
    pose proof Hhl as Hhl'. apply ltb_spec in Hhl' as (Hh & Hl & Hk).
    pose proof (maximum_s_ge x l Hx Hl) as Hge.
    destruct (leb_not_nan _ _ Hge) as [_ Hx1].
    unfold minimum_s. rewrite Hx1, Hh. cbn [orb]. unfold std_min.
    rewrite (ltb_leb_trans _ _ _ Hhl Hge). reflexivity.
  - intros Hx. apply is_nan_true in Hx. subst x. unfold clamp_opt_s.
    destruct lo as [l|], hi as [h|]; reflexivity.
Qed.

(** X4: the step size a step attempt with an error estimate proposes for a
    batch element is dt * factor clamped by the bounds of the state.  With
    an upper bound it is NaN or at most that bound; with a lower bound that
    is not above the upper bound it is NaN or at least the lower bound;
    with a lower bound above the upper bound it is the upper bound unless
    the product is NaN; without bounds it is the product. *)
Theorem dt_next_within_bounds (t0 dt : list float) (y0 : list (list float))
    (step_result : StepResult.t) (state new_state : PIDState.t)
    (accept : list bool) (dt_next : list float) (status : list Status)
    (i : nat) (v : float) :
  PIDController.adapt_step_size pow self t0 dt y0 step_result state
    = Ok (accept, dt_next, new_state, Some status) ->
  dt_next !! i = Some v ->
  exists (error_estimate : list (list float)) (factor : list float) (d f : float),
    StepResult.error_estimate step_result = Some error_estimate /\
    PIDController.dt_factor pow self state
      (Spec.error_ratio self state y0 (StepResult.y step_result) error_estimate)
      = Ok factor /\
    dt !! i = Some d /\ factor !! i = Some f /\
    v = clamp_opt_s (mul d f) (PIDState.dt_min state) (PIDState.dt_max state) /\
    (PIDState.dt_min state = None -> PIDState.dt_max state = None -> v = mul d f) /\
    (forall h : float, PIDState.dt_max state = Some h -> v = nan \/ leb v h = true) /\
    (forall l : float, PIDState.dt_min state = Some l ->
       PIDState.dt_max state = None \/
       (exists h : float, PIDState.dt_max state = Some h /\ leb l h = true) ->
       v = nan \/ leb l v = true) /\
    (forall l h : float,
       PIDState.dt_min state = Some l -> PIDState.dt_max state = Some h ->
       ltb h l = true -> is_nan (mul d f) = false -> v = h).
Proof.
  intros Hrun Hv.
  destruct (lookup_dt_next _ _ _ _ _ _ _ _ _ _ _ _ _ Hrun Hv)
    as (ee & factor & d & f & Hsome & Hfac & Hd & Hf & ->).
  exists ee, factor, d, f.
  destruct (clamp_opt_s_bounds (mul d f) (PIDState.dt_min state) (PIDState.dt_max state))
    as (Hhi & Hlo & Hinv & _).
  split; [exact Hsome|]. split; [exact Hfac|]. split; [exact Hd|]. split; [exact Hf|].
  split; [reflexivity|]. split; [|split; [exact Hhi|split; [exact Hlo|exact Hinv]]].
  intros -> ->. reflexivity.
Qed.

(** An error ratio below one is finite, unless the floor is minus
    infinity. *)
Lemma accepted_ratio_finite (n az : float) :
  az <> opp infinity ->
  ltb (maximum_s n az) one = true -> is_finite (maximum_s n az) = true.
Proof.
  intros Haz Hacc.
  destruct (maximum_s_cases n az) as [E|Hle].
  { rewrite E in Hacc. discriminate Hacc. }
  destruct (maximum_s n az) as [s|[]| |s m e]; try reflexivity; try discriminate Hacc.
  exfalso. apply Haz. destruct az as [s|[]| |[] m e]; try discriminate Hle. reflexivity.
Qed.

(** X5: an accepted batch element always has the status SUCCESS, and an
    element reported INFINITE_NORM is always rejected, whenever the floor
    of the state is not minus infinity. *)
Theorem accepted_step_has_success (t0 dt : list float) (y0 : list (list float))
    (step_result : StepResult.t) (state new_state : PIDState.t)
    (accept : list bool) (dt_next : list float) (status : list Status) :
  PIDState.almost_zero state <> opp infinity ->
  PIDController.adapt_step_size pow self t0 dt y0 step_result state
    = Ok (accept, dt_next, new_state, Some status) ->
  length status = length accept /\
  forall i : nat,
    (accept !! i = Some true -> status !! i = Some SUCCESS) /\
    (status !! i = Some INFINITE_NORM -> accept !! i = Some false).
Proof.
  intros Haz Hrun.
  destruct (adapt_step_size_inv _ _ _ _ _ _ _ _ _ _ _ Hrun)
    as [(_ & _ & _ & Hs)|(ee & factor & Hsome & _ & -> & _ & Hs)];
    [discriminate Hs|].
  injection Hs as ->.
  split; [unfold where_ss; rewrite !length_fmap; reflexivity|].
  intros i. rewrite lookup_where_ss, !list_lookup_fmap.
  unfold Spec.error_ratio. rewrite list_lookup_fmap.
  destruct (PIDController.norm self _ !! i) as [n|]; cbn [fmap option_fmap option_map];
    [|split; discriminate].
  destruct (ltb (maximum_s n (PIDState.almost_zero state)) one) eqn:Hacc.
  - rewrite (accepted_ratio_finite _ _ Haz Hacc). split; [reflexivity|discriminate].
  - split; [discriminate|reflexivity].
Qed.

End Bounds.

(** ** A whole solve *)

Section Solve.

Import F64 torch F64_facts torch_facts.

Variable pow : float -> float -> float.
Variable floor : float.
Variable self : PIDController.t.

(** The order and the bounds of a state are those the solve started
    with. *)
Lemma reachable_configuration (method_order : Z) (problem : InitialValueProblem.t)
    (dt_min dt_max : option float) (state : PIDState.t) :
  Spec.reachable pow floor self method_order problem dt_min dt_max state ->
  PIDState.method_order state = method_order /\
  PIDState.dt_min state = dt_min /\
  PIDState.dt_max state = dt_max.
Proof.
  induction 1 as [|state new_state t0 dt dt_next y0 step_result accept status _ IH Hrun
                  |running current previous _ IHc _ _].
  - auto.
  - destruct (adapt_step_size_state _ _ _ _ _ _ _ _ _ _ _ Hrun)
      as [[_ ->]|(error_estimate & _ & _ & ->)]; exact IH.
  - exact IHc.
Qed.

(** X6: over a whole solve that starts from the state [init] builds (step
    attempts with or without an error estimate, and merges, in any order),
    every state keeps the order of the method and the bounds of the
    controller, so that a step attempt that returns never proposes a step
    size above the controller's dt_max: each proposed step size is NaN or
    at most dt_max, and NaN or at least dt_min when dt_min is not above
    dt_max.  A step attempt with an error estimate returns only for an
    order that is not zero. *)
Theorem solve_respects_dt_max (method_order : Z) (problem : InitialValueProblem.t)
    (state new_state : PIDState.t) (t0 dt : list float) (y0 : list (list float))
    (step_result : StepResult.t) (accept : list bool) (dt_next : list float)
    (status : list Status) :
  Spec.reachable pow floor self method_order problem
    (PIDController.dt_min self) (PIDController.dt_max self) state ->
  PIDController.adapt_step_size pow self t0 dt y0 step_result state
    = Ok (accept, dt_next, new_state, Some status) ->
  method_order <> 0 /\
  PIDState.method_order new_state = method_order /\
  PIDState.dt_min new_state = PIDController.dt_min self /\
  PIDState.dt_max new_state = PIDController.dt_max self /\
  forall (i : nat) (v : float),
    dt_next !! i = Some v ->
    (forall h : float, PIDController.dt_max self = Some h -> v = nan \/ leb v h = true) /\
    (forall l : float, PIDController.dt_min self = Some l ->
       PIDController.dt_max self = None \/
       (exists h : float, PIDController.dt_max self = Some h /\ leb l h = true) ->
       v = nan \/ leb l v = true).
Proof.
  intros Hreach Hrun.
  destruct (reachable_configuration _ _ _ _ _ Hreach) as (Ho & Hmin & Hmax).
  assert (Hnext : Spec.reachable pow floor self method_order problem
                    (PIDController.dt_min self) (PIDController.dt_max self) new_state).
  { eapply Spec.reach_step; eassumption. }
  destruct (reachable_configuration _ _ _ _ _ Hnext) as (Ho' & Hmin' & Hmax').
  split; [|split; [exact Ho'|split; [exact Hmin'|split; [exact Hmax'|]]]].
  - intros Hz.
    destruct (adapt_step_size_inv _ _ _ _ _ _ _ _ _ _ _ Hrun)
      as [(_ & _ & _ & Hs)|(ee & factor & _ & Hfac & _)]; [discriminate Hs|].
    destruct (dt_factor_cases pow self state
                (Spec.error_ratio self state y0 (StepResult.y step_result) ee))
      as [[Hf E]|[[_ E]|[Hok _]]].
    + rewrite E in Hfac. discriminate Hfac.
    + rewrite E in Hfac. discriminate Hfac.
    + rewrite Ho, Hz in Hok. discriminate Hok.
  - intros i v Hv.
    destruct (lookup_dt_next _ _ _ _ _ _ _ _ _ _ _ _ _ Hrun Hv)
      as (ee & factor & d & f & _ & _ & _ & _ & ->).
    destruct (clamp_opt_s_bounds (mul d f) (PIDState.dt_min state) (PIDState.dt_max state))
      as (Hhi & Hlo & _).
    rewrite Hmin, Hmax in Hhi, Hlo. rewrite Hmin, Hmax.
    split; assumption.
Qed.

End Solve.

(** ** Merging twice, and what acceptance depends on *)

Section Merge.

Import F64 torch F64_facts torch_facts.

Lemma where_absorb_l {A : Type} (c : list bool) (a b : list A) :
  where_ c (where_ c a b) b = where_ c a b.
Proof.
  apply list_eq. intros i. rewrite !lookup_where_.
  destruct (c !! i) as [[]|], (a !! i), (b !! i); reflexivity.
Qed.

Lemma where_absorb_r {A : Type} (c : list bool) (a b : list A) :
  where_ c a (where_ c a b) = where_ c a b.
Proof.
  apply list_eq. intros i. rewrite !lookup_where_.
  destruct (c !! i) as [[]|], (a !! i), (b !! i); reflexivity.
Qed.

Lemma where_negb {A : Type} (c : list bool) (a b : list A) :
  where_ (negb <$> c) b a = where_ c a b.
Proof.
  apply list_eq. intros i. rewrite !lookup_where_, list_lookup_fmap.
  destruct (c !! i) as [[]|], (a !! i), (b !! i); reflexivity.
Qed.

(** X7: for a mask and histories of one shape, one entry per batch
    element, merging is idempotent: the merged state has histories of that
    shape, and merging it once more with [previous], or [current] with it,
    under the same mask gives the merged state again.  Swapping the two
    states and negating the mask gives the same history; the fields that
    are not selected then come from the other state. *)
Theorem merge_states_idempotent (running : list bool) (current previous : PIDState.t) :
  length (PIDState.prev_error_ratio current) = length running ->
  length (PIDState.prev_prev_error_ratio current) = length running ->
  length (PIDState.prev_error_ratio previous) = length running ->
  length (PIDState.prev_prev_error_ratio previous) = length running ->
  let merged := PIDController.merge_states running current previous in
  let swapped := PIDController.merge_states (negb <$> running) previous current in
  length (PIDState.prev_error_ratio merged) = length running /\
  length (PIDState.prev_prev_error_ratio merged) = length running /\
  PIDController.merge_states running merged previous = merged /\
  PIDController.merge_states running current merged = merged /\
  PIDState.prev_error_ratio swapped = PIDState.prev_error_ratio merged /\
  PIDState.prev_prev_error_ratio swapped = PIDState.prev_prev_error_ratio merged /\
  PIDState.method_order swapped = PIDState.method_order previous /\
  PIDState.dt_min swapped = PIDState.dt_min previous /\
  PIDState.dt_max swapped = PIDState.dt_max previous /\
  PIDState.almost_zero swapped = PIDState.almost_zero previous.
Proof.
  intros L1 L2 L3 L4 merged swapped. subst merged swapped.
  unfold PIDController.merge_states, PIDState.update_error_ratios.
  cbn [PIDState.prev_error_ratio PIDState.prev_prev_error_ratio PIDState.method_order
       PIDState.dt_min PIDState.dt_max PIDState.almost_zero].
  rewrite !where_absorb_l, !where_absorb_r, !where_negb.
  split; [unfold where_; rewrite !length_zip_with; lia|].
  split; [unfold where_; rewrite !length_zip_with; lia|].
  repeat split; reflexivity.
Qed.

(** X8: whether a batch element is accepted, and its status, depend on the
    step result, y0, the tolerances, the norm and the floor only: two step
    attempts that differ in the time, the step size, the gains, the safety
    factor, the factor bounds, the power, the order, the history or the
    step-size bounds return the same acceptance mask and the same status. *)
Theorem accept_ignores_history (pow pow' : float -> float -> float)
    (self self' : PIDController.t) (t0 t0' dt dt' : list float) (y0 : list (list float))
    (step_result : StepResult.t) (state state' new_state new_state' : PIDState.t)
    (accept accept' : list bool) (dt_next dt_next' : list float)
    (status status' : option (list Status)) :
  StepResult.error_estimate step_result <> None ->
  PIDController.atol self = PIDController.atol self' ->
  PIDController.rtol self = PIDController.rtol self' ->
  (forall x : list (list float), PIDController.norm self x = PIDController.norm self' x) ->
  PIDState.almost_zero state = PIDState.almost_zero state' ->
  PIDController.adapt_step_size pow self t0 dt y0 step_result state
    = Ok (accept, dt_next, new_state, status) ->
  PIDController.adapt_step_size pow' self' t0' dt' y0 step_result state'
    = Ok (accept', dt_next', new_state', status') ->
  accept = accept' /\ status = status'.
Proof.
  intros Hest Hatol Hrtol Hnorm Haz Hrun Hrun'.
  destruct (adapt_step_size_inv _ _ _ _ _ _ _ _ _ _ _ Hrun)
    as [(Hnone & _)|(ee & factor & Hsome & _ & -> & _ & ->)]; [contradiction|].
  destruct (adapt_step_size_inv _ _ _ _ _ _ _ _ _ _ _ Hrun')
    as [(Hnone & _)|(ee' & factor' & Hsome' & _ & -> & _ & ->)]; [contradiction|].
  rewrite Hsome in Hsome'. injection Hsome' as <-.
  assert (E : Spec.error_ratio self state y0 (StepResult.y step_result) ee =
              Spec.error_ratio self' state' y0 (StepResult.y step_result) ee).
  { unfold Spec.error_ratio, Spec.scaled_error. rewrite Hatol, Hrtol, Hnorm, Haz.
    reflexivity. }
  rewrite E. split; reflexivity.
Qed.

End Merge.

(** ** Closed instances of the further properties *)

Section FurtherInstances.

Import F64 torch F64_facts torch_facts Examples BoundedExamples.

(** X2, an instance: for y' = 0.001, y(0) = 1 on [0, 0.001], [init]
    without a first step returns a positive step, the vector field at the
    start and the neutral state of one element. *)
Lemma init_first_step_witness :
  Spec.sign_preserving pow_exact /\
  exists r state,
    PIDController.init pow_exact false (lit 1 6) ctrl (Some slow_field) short_problem 1 None
      = Ok ([r], state, Some [[lit 1 3]]) /\
    state = PIDState.mk 1 [one] [one] (lit 1 6) None None /\
    (r = nan \/ signbit r = signbit one).
Proof.
  split; [exact pow_exact_sign_preserving|].
  exists (S754_finite false 5770372130557269 (-59)),
         (PIDState.mk 1 [one] [one] (lit 1 6) None None).
  assert (Hrun : PIDController.init pow_exact false (lit 1 6) ctrl (Some slow_field)
                   short_problem 1 None
                 = Ok ([S754_finite false 5770372130557269 (-59)],
                       PIDState.mk 1 [one] [one] (lit 1 6) None None, Some [[lit 1 3]]))
    by (vm_compute; reflexivity).
  split; [exact Hrun|]. split; [reflexivity|].
  destruct (init_first_step pow_exact false (lit 1 6) ctrl (Some slow_field) short_problem 1)
    as (_ & _ & H).
  destruct (H _ _ _ Hrun) as (_ & _ & _ & Hsign).
  apply (Hsign pow_exact_sign_preserving 0%nat _ one); [reflexivity|reflexivity|].
  left. reflexivity.
Defined.

(** X4, an instance: from dt = 0.1 and an error ratio of about 0.0999 the
    factor is about 9 and the product about 0.9; the bounds [0.01, 0.15]
    bring the proposed step size down to 0.15. *)
Lemma dt_next_within_bounds_witness :
  exists accept new_state status,
    PIDController.adapt_step_size pow_exact bounded_controller [zero] [lit 1 1] [[one]]
      good_step bounded_state
      = Ok (accept, [lit 15 2], new_state, Some status) /\
    (lit 15 2 = nan \/ leb (lit 15 2) (lit 15 2) = true) /\
    (lit 15 2 = nan \/ leb (lit 1 2) (lit 15 2) = true).
Proof.
  exists [true],
         (PIDState.mk 1 [S754_finite false 7198560842949845 (-56)] [one] (lit 1 6)
            (Some (lit 1 2)) (Some (lit 15 2))),
         [SUCCESS].
  assert (Hrun : PIDController.adapt_step_size pow_exact bounded_controller [zero] [lit 1 1]
                   [[one]] good_step bounded_state
                 = Ok ([true], [lit 15 2],
                       PIDState.mk 1 [S754_finite false 7198560842949845 (-56)] [one]
                         (lit 1 6) (Some (lit 1 2)) (Some (lit 15 2)),
                       Some [SUCCESS]))
    by (vm_compute; reflexivity).
  split; [exact Hrun|].
  destruct (dt_next_within_bounds pow_exact bounded_controller _ _ _ _ _ _ _ _ _
              0%nat (lit 15 2) Hrun eq_refl)
    as (ee & factor & d & f & _ & _ & _ & _ & _ & _ & Hhi & Hlo & _).
  split.
  - apply (Hhi (lit 15 2)). reflexivity.
  - apply (Hlo (lit 1 2)); [reflexivity|].
    right. exists (lit 15 2). split; [reflexivity|]. vm_compute. reflexivity.
Defined.

(** X5, an instance: of two batch elements, the one with an infinite error
    estimate is reported INFINITE_NORM and rejected, the other is accepted
    with SUCCESS. *)
Lemma accepted_step_has_success_witness :
  PIDState.almost_zero state2 <> opp infinity /\
  exists accept dt_next new_state status,
    PIDController.adapt_step_size pow_exact ctrl [zero; zero] [lit 1 1; lit 1 1]
      [[one]; [one]] half_infinite_step state2
      = Ok (accept, dt_next, new_state, Some status) /\
    status !! 0%nat = Some INFINITE_NORM /\ accept !! 0%nat = Some false /\
    accept !! 1%nat = Some true /\ status !! 1%nat = Some SUCCESS.
Proof.
  assert (Haz : PIDState.almost_zero state2 <> opp infinity).
  { intros H. vm_compute in H. discriminate H. }
  split; [exact Haz|].
  destruct (PIDController.adapt_step_size pow_exact ctrl [zero; zero] [lit 1 1; lit 1 1]
              [[one]; [one]] half_infinite_step state2)
    as [[[[accept dt_next] new_state] [status|]]|e] eqn:Hrun.
  - exists accept, dt_next, new_state, status. split; [reflexivity|].
    destruct (accepted_step_has_success pow_exact ctrl _ _ _ _ _ _ _ _ _ Haz Hrun)
      as [_ Hper].
    pose proof Hrun as Hval. vm_compute in Hval.
    assert (H0 : status !! 0%nat = Some INFINITE_NORM).
    { injection Hval as _ _ _ <-. reflexivity. }
    assert (H1 : accept !! 1%nat = Some true).
    { injection Hval as <- _ _ _. reflexivity. }
    split; [exact H0|]. split; [apply (Hper 0%nat), H0|].
    split; [exact H1|]. apply (Hper 1%nat), H1.
  - vm_compute in Hrun. discriminate Hrun.
  - vm_compute in Hrun. discriminate Hrun.
Defined.

(** X6, an instance: after one accepted step from the initial state of the
    bounded controller, a step attempt from dt = 0.15 proposes a step size
    within [0.01, 0.15], and the state keeps the bounds. *)
Lemma solve_respects_dt_max_witness :
  exists state accept v new_state status,
    Spec.reachable pow_exact (lit 1 6) bounded_controller 1 short_problem
      (Some (lit 1 2)) (Some (lit 15 2)) state /\
    PIDState.prev_error_ratio state <> PIDState.prev_prev_error_ratio state /\
    PIDController.adapt_step_size pow_exact bounded_controller [zero] [lit 15 2] [[one]]
      good_step state
      = Ok (accept, [v], new_state, Some status) /\
    (v = nan \/ leb v (lit 15 2) = true) /\
    (v = nan \/ leb (lit 1 2) v = true) /\
    PIDState.dt_max new_state = Some (lit 15 2).
Proof.
  assert (Hreach :
    Spec.reachable pow_exact (lit 1 6) bounded_controller 1 short_problem
      (PIDController.dt_min bounded_controller) (PIDController.dt_max bounded_controller)
      (PIDState.mk 1 [S754_finite false 7198560842949845 (-56)] [one] (lit 1 6)
         (Some (lit 1 2)) (Some (lit 15 2)))).
  { eapply (Spec.reach_step _ _ _ _ _ _ _ _ _ [zero] [lit 1 1] _ [[one]] good_step).
    - apply Spec.reach_initial.
    - vm_compute. reflexivity. }
  destruct (PIDController.adapt_step_size pow_exact bounded_controller [zero] [lit 15 2]
              [[one]] good_step
              (PIDState.mk 1 [S754_finite false 7198560842949845 (-56)] [one] (lit 1 6)
                 (Some (lit 1 2)) (Some (lit 15 2))))
    as [[[[accept dt_next] new_state] [status|]]|e] eqn:Hrun.
  - destruct (solve_respects_dt_max pow_exact (lit 1 6) bounded_controller 1 short_problem
                _ _ _ _ _ _ _ _ _ Hreach Hrun)
      as (_ & _ & _ & Hmax & Hper).
    pose proof Hrun as Hval. vm_compute in Hval.
    destruct dt_next as [|v [|w dt_next]]; [discriminate Hval| |discriminate Hval].
    destruct (Hper 0%nat v eq_refl) as [Hhi Hlo].
    exists (PIDState.mk 1 [S754_finite false 7198560842949845 (-56)] [one] (lit 1 6)
              (Some (lit 1 2)) (Some (lit 15 2))), accept, v, new_state, status.
    split; [exact Hreach|]. split; [discriminate|]. split; [exact Hrun|].
    split; [apply (Hhi (lit 15 2)); reflexivity|].
    split; [|exact Hmax].
    apply (Hlo (lit 1 2)); [reflexivity|].
    right. exists (lit 15 2). split; [reflexivity|]. vm_compute. reflexivity.
  - vm_compute in Hrun. discriminate Hrun.
  - vm_compute in Hrun. discriminate Hrun.
Defined.

(** X7, an instance: merging two states of two batch elements under the
    mask (true, false), and merging the result again. *)
Lemma merge_states_idempotent_witness :
  PIDController.merge_states [true; false]
    (PIDState.mk 4 [one; one] [one; one] (lit 1 6) None None)
    (PIDState.mk 5 [lit 5 1; lit 5 1] [lit 5 1; lit 5 1] (lit 1 6) None None)
  = PIDState.mk 4 [one; lit 5 1] [one; lit 5 1] (lit 1 6) None None /\
  PIDController.merge_states [true; false]
    (PIDController.merge_states [true; false]
       (PIDState.mk 4 [one; one] [one; one] (lit 1 6) None None)
       (PIDState.mk 5 [lit 5 1; lit 5 1] [lit 5 1; lit 5 1] (lit 1 6) None None))
    (PIDState.mk 5 [lit 5 1; lit 5 1] [lit 5 1; lit 5 1] (lit 1 6) None None)
  = PIDState.mk 4 [one; lit 5 1] [one; lit 5 1] (lit 1 6) None None /\
  PIDState.method_order
    (PIDController.merge_states (negb <$> [true; false])
       (PIDState.mk 5 [lit 5 1; lit 5 1] [lit 5 1; lit 5 1] (lit 1 6) None None)
       (PIDState.mk 4 [one; one] [one; one] (lit 1 6) None None)) = 5.
Proof.
  destruct (merge_states_idempotent [true; false]
              (PIDState.mk 4 [one; one] [one; one] (lit 1 6) None None)
              (PIDState.mk 5 [lit 5 1; lit 5 1] [lit 5 1; lit 5 1] (lit 1 6) None None)
              eq_refl eq_refl eq_refl eq_refl)
    as (_ & _ & Hagain & _ & _ & _ & Horder & _).
  split; [reflexivity|]. split; [|exact Horder].
  rewrite Hagain. reflexivity.
Defined.

(** X8, an instance: the proportional controller from the history
    (0.5, 1.0) and the derivative controller from a neutral history, at
    another time and step size and with an upper bound on the step size,
    return the same acceptance mask and status for the same step. *)
Lemma accept_ignores_history_witness :
  exists accept dt_next dt_next' new_state new_state' status,
    PIDController.adapt_step_size pow_exact ctrl [zero; zero] [lit 1 1; lit 1 1]
      [[one]; [one]] half_infinite_step state2
      = Ok (accept, dt_next, new_state, status) /\
    PIDController.adapt_step_size pow_exact d_controller [one; one] [lit 1 2; lit 1 2]
      [[one]; [one]] half_infinite_step
      (PIDState.mk 1 [one; one] [one; one] (lit 1 6) None (Some one))
      = Ok (accept, dt_next', new_state', status).
Proof.
  destruct (PIDController.adapt_step_size pow_exact ctrl [zero; zero] [lit 1 1; lit 1 1]
              [[one]; [one]] half_infinite_step state2)
    as [[[[accept dt_next] new_state] status]|e] eqn:Hrun;
    [|vm_compute in Hrun; discriminate Hrun].
  destruct (PIDController.adapt_step_size pow_exact d_controller [one; one]
              [lit 1 2; lit 1 2] [[one]; [one]] half_infinite_step
              (PIDState.mk 1 [one; one] [one; one] (lit 1 6) None (Some one)))
    as [[[[accept' dt_next'] new_state'] status']|e] eqn:Hrun';
    [|vm_compute in Hrun'; discriminate Hrun'].
  assert (Hest : StepResult.error_estimate half_infinite_step <> None) by discriminate.
  destruct (accept_ignores_history pow_exact pow_exact ctrl d_controller _ _ _ _ _ _
              state2 (PIDState.mk 1 [one; one] [one; one] (lit 1 6) None (Some one))
              _ _ _ _ _ _ _ _ Hest eq_refl eq_refl (fun _ => eq_refl) eq_refl
              Hrun Hrun') as [<- <-].
  exists accept, dt_next, dt_next', new_state, new_state', status.
  split; reflexivity.
Defined.

End FurtherInstances.
